(** * Real-time chat backend: the socket handlers of [server.js]

    A shallow embedding of the Socket.IO handlers ([registerPushToken],
    [joinRoom], [sendMessage], [typing], [disconnect]) together with the
    process-wide [onlineUsers] registry they share.

    The handlers are [async]: each one runs synchronously up to an [await]
    and is resumed later by the event loop.  A handler is therefore cut at
    its suspension points; the part before the first [await] runs when the
    event arrives, the remainder is kept as a pending continuation and runs
    when the awaited operation settles.  Other events may be served in
    between.

    The repository holds two revisions of the server.  The development
    follows [server.js]; the earlier revision has the same [joinRoom],
    [sendMessage], [typing] and [disconnect] handlers without the push
    token: no [registerPushToken], no [pushToken] property in the session
    object and no notification block after the broadcast. *)

From stdpp Require Import base list strings.
From Stdlib Require Import Ascii ZArith Lia Sorted.

Open Scope Z_scope.

(** ** JavaScript values carried by event payloads *)

Module Js.

Inductive jsval : Type :=
  | JUndefined
  | JNull
  | JBool (b : bool)
  | JString (s : string).

(** [a === b] *)
Definition strict_eq (a b : jsval) : bool :=
  match a, b with
  | JUndefined, JUndefined => true
  | JNull, JNull => true
  | JBool x, JBool y => Bool.eqb x y
  | JString x, JString y => String.eqb x y
  | _, _ => false
  end.

(** Truthiness, as used by [if (v)], [a && v] and [v || d]. *)
Definition truthy (v : jsval) : bool :=
  match v with
  | JUndefined | JNull => false
  | JBool b => b
  | JString s => negb (String.eqb s "")
  end.

(** [a || b] *)
Definition or_else (a b : jsval) : jsval := if truthy a then a else b.

(** String conversion inside a template literal. *)
Definition to_text (v : jsval) : string :=
  match v with
  | JUndefined => "undefined"
  | JNull => "null"
  | JBool true => "true"
  | JBool false => "false"
  | JString s => s
  end.

(** A plain object: its own properties in creation order. *)
Abbreviation obj := (list (string * jsval)).

(** [o.k]; a property that is absent reads as [undefined]. *)
Fixpoint get (k : string) (o : obj) : jsval :=
  match o with
  | [] => JUndefined
  | (k', v) :: o' => if String.eqb k k' then v else get k o'
  end.

(** [o.k = v]; an existing property keeps its place, a new one is added
    last. *)
Fixpoint set (k : string) (v : jsval) (o : obj) : obj :=
  match o with
  | [] => [(k, v)]
  | (k', v') :: o' =>
      if String.eqb k k' then (k, v) :: o' else (k', v') :: set k v o'
  end.

Definition keys (o : obj) : list string := map fst o.

End Js.
Import Js.

(** ** The registry [onlineUsers]

    [const onlineUsers = {}] maps a socket id to a session object.  The
    sessions are objects on the heap: [Object.values(onlineUsers)] yields
    references, and [onlineUsers[id].pushToken = t] updates the object that
    earlier snapshots still point to. *)

Abbreviation loc := nat (only parsing).
Abbreviation heap := (list obj) (only parsing).

Definition deref (h : heap) (a : loc) : obj := default [] (h !! a).

Definition alloc (o : obj) (h : heap) : loc * heap := (length h, h ++ [o]).

Module Registry.

Abbreviation t := (list (string * loc)) (only parsing).

(** [onlineUsers[id]] *)
Fixpoint lookup (id : string) (r : t) : option loc :=
  match r with
  | [] => None
  | (k, a) :: r' => if String.eqb id k then Some a else lookup id r'
  end.

(** [onlineUsers[id] = a]: an existing key keeps its position in the
    enumeration order, a new key is enumerated last. *)
Fixpoint assign (id : string) (a : loc) (r : t) : t :=
  match r with
  | [] => [(id, a)]
  | (k, b) :: r' =>
      if String.eqb id k then (k, a) :: r' else (k, b) :: assign id a r'
  end.

(** [delete onlineUsers[id]] *)
Fixpoint remove (id : string) (r : t) : t :=
  match r with
  | [] => []
  | (k, a) :: r' =>
      if String.eqb id k then remove id r' else (k, a) :: remove id r'
  end.

(** [Object.values(onlineUsers)]: the values in the order in which their
    keys were first assigned (socket ids are not array indices). *)
Definition values (r : t) : list loc := map snd r.

End Registry.

(** ** Sockets, stored messages, emitted events *)

(** A connected socket: its id, the ad-hoc properties the handlers put on
    it, and the transport rooms it has joined. *)
Record Socket : Type := mkSocket {
  sock_id : string;
  sock_pushToken : jsval;
  sock_username : jsval;
  sock_room : jsval;
  sock_rooms : list jsval
}.

(** Modelled from the spec: the schema [models/Message] is not among the
    sources.  A chat message is a record of [room], [username], body and
    [timestamp]; the handlers construct it with the fields [username],
    [room], [message] and [timestamp]. *)
Record Message : Type := mkMessage {
  msg_username : jsval;
  msg_room : jsval;
  msg_message : jsval;
  msg_timestamp : Z
}.

(** The object sent with a ['message'] event. *)
Record MessageEvent : Type := mkMessageEvent {
  me_username : jsval;
  me_message : jsval;
  me_timestamp : Z;
  me_isSystem : bool
}.

Inductive Payload : Type :=
  | ChatHistory (messages : list Message)
  | MessageEv (m : MessageEvent)
  | OnlineUsers (roomUsers : list obj)
  | UserTyping (username isTyping : jsval).

Inductive Target : Type :=
  | ToSocket (id : string)                 (* socket.emit *)
  | ToRoom (room : jsval)                  (* io.to(room).emit *)
  | ToRoomExcept (room : jsval) (id : string).  (* socket.to(room).emit *)

(** One call of [emit], with the sockets it was delivered to. *)
Record Emit : Type := mkEmit {
  em_target : Target;
  em_recipients : list string;
  em_payload : Payload
}.

(** A push notification handed to the Expo SDK. *)
Record Notification : Type := mkNotification {
  n_to : jsval;
  n_sound : string;
  n_title : string;
  n_body : jsval;
  n_data_room : jsval;
  n_data_username : jsval
}.

(** The calls to [console.log] and [console.error], one constructor per
    call site.  The earlier revision words three of its lines differently
    from [server.js]; these lines have constructors of their own. *)
Inductive LogEntry : Type :=
  | LogConnected (id : string)
  | LogPushTokenRegistered (token : jsval)
  | LogJoined (username room : jsval)
  | ErrJoining
  | LogSent (username room message : jsval)
  | ErrInvalidPushToken (token : jsval)
  | LogPushSent
  | ErrPushSend
  | ErrSending
  | LogDisconnected (username room : jsval)
  | LegacyLogConnected (id : string)
  | LegacyLogSent (username room message : jsval)
  | LegacyLogDisconnected (username room : jsval).


(** A handler suspended at an [await]. *)
Inductive Pending : Type :=
  | AwaitFind (id : string) (username room : jsval) (roomUsers : list loc)
  | AwaitSave (id : string) (username room message : jsval)
              (newMessage : Message)
  | AwaitPush (chunk : list Notification) (rest : list (list Notification)).

Record State : Type := mkState {
  st_heap : heap;
  st_onlineUsers : Registry.t;
  st_sockets : list Socket;
  st_store : list Message;
  st_clock : Z;
  st_outbox : list Emit;
  st_console : list LogEntry;
  st_pushed : list (list Notification);
  st_pending : list (nat * Pending);
  st_next : nat
}.

Definition init : State :=
  mkState [] [] [] [] 0 [] [] [] [] 0.

(** An event of a client, as the parameters its listener destructures
    from the argument (see [Arg] for the argument itself). *)
Inductive ClientEvent : Type :=
  | RegisterPushToken (pushToken : jsval)
  | JoinRoom (username room : jsval)
  | SendMessage (username room message : jsval)
  | Typing (username room isTyping : jsval).

(** What the environment does next. *)
Inductive Input : Type :=
  | Connect (id : string)
  | Receive (id : string) (e : ClientEvent)
  | Disconnect (id : string)
  | Settle (p : nat) (ok : bool)   (* the awaited promise resolves / rejects *)
  | Tick (dt : positive).         (* time passes *)

(** ** The message store

    Modelled from the spec: the model [Message] is not among the sources.
    The store is a durable append-only log of chat messages, queryable by
    room in chronological order, ties broken by insertion order.  [save]
    and [find] can fail: whether they do is decided by the environment
    (see [Settle]). *)

Module Store.

(** [Message.find({ room })] *)
Definition find (room : jsval) (st : list Message) : list Message :=
  List.filter (fun m => strict_eq (msg_room m) room) st.

Fixpoint insert_asc (m : Message) (l : list Message) : list Message :=
  match l with
  | [] => [m]
  | x :: l' =>
      if msg_timestamp m <=? msg_timestamp x then m :: x :: l'
      else x :: insert_asc m l'
  end.

(** [.sort({ timestamp: 1 })]: ascending, equal timestamps stay in
    insertion order. *)
Fixpoint sort_asc (l : list Message) : list Message :=
  match l with
  | [] => []
  | m :: l' => insert_asc m (sort_asc l')
  end.

(** [.limit(n)] *)
Definition limit (n : nat) (l : list Message) : list Message := take n l.

(** [Message.find({ room }).sort({ timestamp: 1 }).limit(50)] *)
Definition history (room : jsval) (st : list Message) : list Message :=
  limit 50 (sort_asc (find room st)).

End Store.

(** ** The Expo SDK

    [Expo.isExpoPushToken] and [expo.chunkPushNotifications] belong to the
    [expo-server-sdk] package.  The handlers only rely on the chunks being
    a partition of the notifications, in order. *)

Class ExpoSdk : Type := {
  isExpoPushToken : jsval -> bool;
  chunkPushNotifications : list Notification -> list (list Notification);
  chunks_partition : forall l, concat (chunkPushNotifications l) = l
}.

(** A reference implementation of the SDK functions, used to run the
    handlers on concrete scenarios: a token is accepted when it reads
    [ExponentPushToken[...]] or [ExpoPushToken[...]] or has the shape of a
    UUID, and notifications are sent in chunks of at most 100. *)

Module ExpoReference.

Fixpoint ends_with_bracket (s : string) : bool :=
  match s with
  | EmptyString => false
  | String c EmptyString => Ascii.eqb c "]"%char
  | String _ s' => ends_with_bracket s'
  end.

Definition is_alnum (c : ascii) : bool :=
  let n := nat_of_ascii c in
  (Nat.leb 48 n && Nat.leb n 57) || (Nat.leb 65 n && Nat.leb n 90)
  || (Nat.leb 97 n && Nat.leb n 122).

(** Groups of letters and digits of the given sizes, separated by [-]. *)
Fixpoint dashed_groups (sizes : list nat) (s : list ascii) : bool :=
  match sizes with
  | [] => false
  | [n] => Nat.eqb (length s) n && forallb is_alnum s
  | n :: sizes' =>
      Nat.eqb (length (take n s)) n && forallb is_alnum (take n s)
      && match drop n s with
         | c :: s' => Ascii.eqb c "-"%char && dashed_groups sizes' s'
         | [] => false
         end
  end.

Definition is_token (v : jsval) : bool :=
  match v with
  | JString s =>
      ((String.prefix "ExponentPushToken[" s || String.prefix "ExpoPushToken[" s)
       && ends_with_bracket s)
      || dashed_groups [8; 4; 4; 4; 12]%nat (String.list_ascii_of_string s)
  | _ => false
  end.

Fixpoint chunk_go {A : Type} (n : nat) (cur l : list A) : list (list A) :=
  match l with
  | [] => match cur with [] => [] | _ :: _ => [cur] end
  | x :: l' =>
      if Nat.eqb (length (cur ++ [x])) n
      then (cur ++ [x]) :: chunk_go n [] l'
      else chunk_go n (cur ++ [x]) l'
  end.

Definition sdk : ExpoSdk.
Proof.
  refine (Build_ExpoSdk is_token (chunk_go 100 []) _).
  intros l. change l with ([] ++ l) at 2.
  generalize (@nil Notification) as cur.
  induction l as [|x l IH]; intros cur; simpl.
  - destruct cur; simpl; [reflexivity|]. now rewrite !app_nil_r.
  - destruct (Nat.eqb _ 100); simpl; rewrite IH.
    + now rewrite app_nil_l, <- app_assoc.
    + now rewrite <- app_assoc.
Defined.

End ExpoReference.

(** ** Field updates of the state *)

Definition with_heap (h : heap) (s : State) : State :=
  mkState h (st_onlineUsers s) (st_sockets s) (st_store s) (st_clock s)
          (st_outbox s) (st_console s) (st_pushed s) (st_pending s) (st_next s).

Definition with_onlineUsers (r : Registry.t) (s : State) : State :=
  mkState (st_heap s) r (st_sockets s) (st_store s) (st_clock s)
          (st_outbox s) (st_console s) (st_pushed s) (st_pending s) (st_next s).

Definition with_sockets (l : list Socket) (s : State) : State :=
  mkState (st_heap s) (st_onlineUsers s) l (st_store s) (st_clock s)
          (st_outbox s) (st_console s) (st_pushed s) (st_pending s) (st_next s).

Definition with_store (l : list Message) (s : State) : State :=
  mkState (st_heap s) (st_onlineUsers s) (st_sockets s) l (st_clock s)
          (st_outbox s) (st_console s) (st_pushed s) (st_pending s) (st_next s).

Definition with_clock (c : Z) (s : State) : State :=
  mkState (st_heap s) (st_onlineUsers s) (st_sockets s) (st_store s) c
          (st_outbox s) (st_console s) (st_pushed s) (st_pending s) (st_next s).

Definition with_outbox (l : list Emit) (s : State) : State :=
  mkState (st_heap s) (st_onlineUsers s) (st_sockets s) (st_store s)
          (st_clock s) l (st_console s) (st_pushed s) (st_pending s) (st_next s).

Definition with_console (l : list LogEntry) (s : State) : State :=
  mkState (st_heap s) (st_onlineUsers s) (st_sockets s) (st_store s)
          (st_clock s) (st_outbox s) l (st_pushed s) (st_pending s) (st_next s).

Definition with_pushed (l : list (list Notification)) (s : State) : State :=
  mkState (st_heap s) (st_onlineUsers s) (st_sockets s) (st_store s)
          (st_clock s) (st_outbox s) (st_console s) l (st_pending s) (st_next s).

Definition with_pending (l : list (nat * Pending)) (s : State) : State :=
  mkState (st_heap s) (st_onlineUsers s) (st_sockets s) (st_store s)
          (st_clock s) (st_outbox s) (st_console s) (st_pushed s) l (st_next s).

Definition with_next (n : nat) (s : State) : State :=
  mkState (st_heap s) (st_onlineUsers s) (st_sockets s) (st_store s)
          (st_clock s) (st_outbox s) (st_console s) (st_pushed s)
          (st_pending s) n.

(** ** Transport: sockets and rooms *)

Definition find_socket (id : string) (l : list Socket) : option Socket :=
  List.find (fun k => String.eqb (sock_id k) id) l.

Definition update_socket (id : string) (f : Socket -> Socket)
    (l : list Socket) : list Socket :=
  map (fun k => if String.eqb (sock_id k) id then f k else k) l.

Definition drop_socket (id : string) (l : list Socket) : list Socket :=
  List.filter (fun k => negb (String.eqb (sock_id k) id)) l.

Definition in_room (room : jsval) (k : Socket) : bool :=
  existsb (strict_eq room) (sock_rooms k).

(** [socket.join(room)]: the rooms of a socket form a set. *)
Definition socket_join (room : jsval) (k : Socket) : Socket :=
  mkSocket (sock_id k) (sock_pushToken k) (sock_username k) (sock_room k)
           (if in_room room k then sock_rooms k else sock_rooms k ++ [room]).

Definition deliver (t : Target) (l : list Socket) : list string :=
  match t with
  | ToSocket id =>
      map sock_id (List.filter (fun k => String.eqb (sock_id k) id) l)
  | ToRoom room => map sock_id (List.filter (in_room room) l)
  | ToRoomExcept room id =>
      map sock_id
          (List.filter
             (fun k => in_room room k && negb (String.eqb (sock_id k) id)) l)
  end.

Definition emit (t : Target) (p : Payload) (s : State) : State :=
  with_outbox (st_outbox s ++ [mkEmit t (deliver t (st_sockets s)) p]) s.

Definition console (e : LogEntry) (s : State) : State :=
  with_console (st_console s ++ [e]) s.

(** Suspend the running handler at an [await]. *)
Definition suspend (k : Pending) (s : State) : State :=
  with_next (S (st_next s)) (with_pending ((st_next s, k) :: st_pending s) s).

Fixpoint pending_lookup (p : nat) (l : list (nat * Pending)) : option Pending :=
  match l with
  | [] => None
  | (q, k) :: l' => if Nat.eqb p q then Some k else pending_lookup p l'
  end.

Definition pending_remove (p : nat) (l : list (nat * Pending))
    : list (nat * Pending) :=
  List.filter (fun qk => negb (Nat.eqb p (fst qk))) l.

(** The session objects a snapshot refers to, as they are now. *)
Definition sessions (h : heap) (l : list loc) : list obj := map (deref h) l.

(** [Object.values(onlineUsers).filter(user => user.room === room)],
    as references. *)
Definition room_users (room : jsval) (s : State) : list loc :=
  List.filter (fun a => strict_eq (get "room" (deref (st_heap s) a)) room)
              (Registry.values (st_onlineUsers s)).

Definition system_message (text : string) (s : State) : Payload :=
  MessageEv (mkMessageEvent (JString "System") (JString text) (st_clock s) true).

(** ** The handlers *)

Section Server.

Context `{Expo : ExpoSdk}.

(** [io.on('connection', socket => ...)].  A socket starts in the room
    named by its own id.  Ids are not reused: a connection whose id is in
    use is ignored. *)
Definition on_connection (id : string) (s : State) : State :=
  match find_socket id (st_sockets s) with
  | Some _ => s
  | None =>
      console (LogConnected id)
        (with_sockets
           (st_sockets s ++
            [mkSocket id JUndefined JUndefined JUndefined [JString id]]) s)
  end.

(** [socket.on('registerPushToken', ({ pushToken }) => ...)] *)
Definition on_registerPushToken (id : string) (pushToken : jsval)
    (s : State) : State :=
  let s1 :=
    with_sockets
      (update_socket id
         (fun k => mkSocket (sock_id k) pushToken (sock_username k)
                            (sock_room k) (sock_rooms k))
         (st_sockets s)) s in
  let s2 :=
    match Registry.lookup id (st_onlineUsers s1) with
    | Some a =>
        with_heap
          (<[a := set "pushToken" pushToken (deref (st_heap s1) a)]>
             (st_heap s1)) s1
    | None => s1
    end in
  console (LogPushTokenRegistered pushToken) s2.

(** The object literal
    [{ username, room, socketId: socket.id,
       pushToken: socket.pushToken || null }]. *)
Definition new_session (id : string) (username room token : jsval) : obj :=
  [("username", username); ("room", room); ("socketId", JString id);
   ("pushToken", or_else token JNull)].

(** [socket.on('joinRoom', async ({ username, room }) => ...)], up to
    [await Message.find(...)]. *)
Definition on_joinRoom (id : string) (username room : jsval)
    (s : State) : State :=
  let s1 :=
    with_sockets
      (update_socket id
         (fun k =>
            let k' := socket_join room k in
            mkSocket (sock_id k') (sock_pushToken k') username room
                     (sock_rooms k'))
         (st_sockets s)) s in
  let token :=
    match find_socket id (st_sockets s1) with
    | Some k => sock_pushToken k
    | None => JUndefined
    end in
  let '(a, h) := alloc (new_session id username room token) (st_heap s1) in
  let s2 :=
    with_onlineUsers (Registry.assign id a (st_onlineUsers s1))
                     (with_heap h s1) in
  let roomUsers := room_users room s2 in
  suspend (AwaitFind id username room roomUsers) s2.

(** The rest of the [joinRoom] handler, once [Message.find] has settled.
    A rejection lands in the [catch] around the whole body. *)
Definition joinRoom_resume (id : string) (username room : jsval)
    (roomUsers : list loc) (ok : bool) (s : State) : State :=
  if ok then
    let messages := Store.history room (st_store s) in
    let s1 := emit (ToSocket id) (ChatHistory messages) s in
    let s2 :=
      emit (ToRoom room)
           (system_message (to_text username +:+ " has joined the room") s1)
           s1 in
    let s3 :=
      emit (ToRoom room) (OnlineUsers (sessions (st_heap s2) roomUsers)) s2 in
    console (LogJoined username room) s3
  else console ErrJoining s.

(** [socket.on('sendMessage', async ({ username, room, message }) => ...)],
    up to [await newMessage.save()]. *)
Definition on_sendMessage (id : string) (username room message : jsval)
    (s : State) : State :=
  let newMessage := mkMessage username room message (st_clock s) in
  suspend (AwaitSave id username room message newMessage) s.

(** The filter of the notification block:
    [user.room === room && user.username !== username && user.pushToken]. *)
Definition push_candidate (username room : jsval) (user : obj) : bool :=
  strict_eq (get "room" user) room
  && negb (strict_eq (get "username" user) username)
  && truthy (get "pushToken" user).

Definition notification (username room message : jsval) (user : obj)
    : Notification :=
  mkNotification (get "pushToken" user) "default"
                 (to_text username +:+ " in " +:+ to_text room)
                 message room username.

(** The loop [for (let user of roomUsers)]: the notifications pushed and
    the errors logged, both in order. *)
Fixpoint build_notifications (username room message : jsval)
    (roomUsers : list obj) : list Notification * list LogEntry :=
  match roomUsers with
  | [] => ([], [])
  | user :: rest =>
      let '(ns, errs) := build_notifications username room message rest in
      if negb (isExpoPushToken (get "pushToken" user))
      then (ns, ErrInvalidPushToken (get "pushToken" user) :: errs)
      else (notification username room message user :: ns, errs)
  end.

(** The loop [for (let chunk of chunks)], up to its next
    [await expo.sendPushNotificationsAsync(chunk)]. *)
Definition send_chunks (chunks : list (list Notification)) (s : State)
    : State :=
  match chunks with
  | [] => s
  | chunk :: rest =>
      suspend (AwaitPush chunk rest)
              (with_pushed (st_pushed s ++ [chunk]) s)
  end.

(** The rest of the [sendMessage] handler, once [save] has settled. *)
Definition sendMessage_resume (username room message : jsval)
    (newMessage : Message) (ok : bool) (s : State) : State :=
  if ok then
    let s1 := with_store (st_store s ++ [newMessage]) s in
    let s2 :=
      emit (ToRoom room)
           (MessageEv (mkMessageEvent username message
                                      (msg_timestamp newMessage) false))
           s1 in
    let s3 := console (LogSent username room message) s2 in
    let roomUsers :=
      List.filter (push_candidate username room)
                  (sessions (st_heap s3)
                            (Registry.values (st_onlineUsers s3))) in
    match roomUsers with
    | [] => s3
    | _ :: _ =>
        let '(notifications, errs) :=
          build_notifications username room message roomUsers in
        let s4 := with_console (st_console s3 ++ errs) s3 in
        send_chunks (chunkPushNotifications notifications) s4
    end
  else console ErrSending s.

(** One turn of the chunk loop, once the push call has settled. *)
Definition push_resume (rest : list (list Notification)) (ok : bool)
    (s : State) : State :=
  send_chunks rest (console (if ok then LogPushSent else ErrPushSend) s).

(** [socket.on('typing', ({ username, room, isTyping }) => ...)] *)
Definition on_typing (id : string) (username room isTyping : jsval)
    (s : State) : State :=
  emit (ToRoomExcept room id) (UserTyping username isTyping) s.

(** [socket.on('disconnect', () => ...)].  The transport has already taken
    the socket out of its rooms when the handler runs. *)
Definition on_disconnect (id : string) (s : State) : State :=
  let s0 := with_sockets (drop_socket id (st_sockets s)) s in
  match Registry.lookup id (st_onlineUsers s0) with
  | None => s0
  | Some a =>
      let user := deref (st_heap s0) a in
      let username := get "username" user in
      let room := get "room" user in
      let s1 := with_onlineUsers (Registry.remove id (st_onlineUsers s0)) s0 in
      let roomUsers := room_users room s1 in
      let s2 :=
        emit (ToRoom room)
             (system_message (to_text username +:+ " has left the room") s1)
             s1 in
      let s3 :=
        emit (ToRoom room) (OnlineUsers (sessions (st_heap s2) roomUsers)) s2 in
      console (LogDisconnected username room) s3
  end.

(** The listener of the event, run on the parameters destructured from
    its argument; [serve] deals with arguments that do not destructure. *)
Definition receive (id : string) (e : ClientEvent) (s : State) : State :=
  match e with
  | RegisterPushToken t => on_registerPushToken id t s
  | JoinRoom u r => on_joinRoom id u r s
  | SendMessage u r m => on_sendMessage id u r m s
  | Typing u r t => on_typing id u r t s
  end.

Definition resume (k : Pending) (ok : bool) (s : State) : State :=
  match k with
  | AwaitFind id u r roomUsers => joinRoom_resume id u r roomUsers ok s
  | AwaitSave _ u r m newMessage => sendMessage_resume u r m newMessage ok s
  | AwaitPush _ rest => push_resume rest ok s
  end.

(** ** The event loop *)

Definition step (i : Input) (s : State) : State :=
  match i with
  | Connect id => on_connection id s
  | Receive id e =>
      match find_socket id (st_sockets s) with
      | Some _ => receive id e s
      | None => s
      end
  | Disconnect id =>
      match find_socket id (st_sockets s) with
      | Some _ => on_disconnect id s
      | None => s
      end
  | Settle p ok =>
      match pending_lookup p (st_pending s) with
      | Some k => resume k ok (with_pending (pending_remove p (st_pending s)) s)
      | None => s
      end
  | Tick dt => with_clock (st_clock s + Z.pos dt) s
  end.

Definition run (tr : list Input) (s : State) : State :=
  fold_left (fun acc i => step i acc) tr s.

(** ** Observations *)

(** The current member set of a room, read off the registry. *)
Definition members (room : jsval) (s : State) : list obj :=
  sessions (st_heap s) (room_users room s).

(** The payloads of the [onlineUsers] events sent to a room so far. *)
Definition onlineUsers_sent (room : jsval) (s : State) : list (list obj) :=
  flat_map
    (fun e =>
       match em_target e, em_payload e with
       | ToRoom r, OnlineUsers l => if strict_eq r room then [l] else []
       | _, _ => []
       end)
    (st_outbox s).

End Server.

(** ** Events as they arrive

    The listeners destructure their argument in the parameter list,
    [({ username, room }) => ...], before the body and its [try] are
    entered.  An argument that is an object, or a primitive other than
    [undefined] and [null], destructures: each parameter is the property
    of that name, [undefined] when absent.  An event sent without
    argument, or with [null], makes the destructuring throw; no handler
    catches the error, and the process exits. *)

Inductive Arg : Type :=
  | Value (v : jsval)
  | Object (o : obj).

Definition destructures (a : Arg) : bool :=
  match a with
  | Value JUndefined | Value JNull => false
  | _ => true
  end.

(** The parameter bound to the property [k] of the argument. *)
Definition prop (k : string) (a : Arg) : jsval :=
  match a with
  | Object o => get k o
  | Value _ => JUndefined
  end.

(** The listeners registered with [socket.on], by event name, as the
    parameters they destructure. *)
Definition listener (name : string) : option (Arg -> ClientEvent) :=
  if String.eqb name "registerPushToken" then
    Some (fun a => RegisterPushToken (prop "pushToken" a))
  else if String.eqb name "joinRoom" then
    Some (fun a => JoinRoom (prop "username" a) (prop "room" a))
  else if String.eqb name "sendMessage" then
    Some (fun a => SendMessage (prop "username" a) (prop "room" a)
                               (prop "message" a))
  else if String.eqb name "typing" then
    Some (fun a => Typing (prop "username" a) (prop "room" a)
                          (prop "isTyping" a))
  else None.

Inductive Arrival : Type :=
  | Packet (id : string) (name : string) (a : Arg)  (* an event from a client *)
  | Turn (i : Input).                               (* any other turn *)

(** The server process: the state of the handlers, and whether the
    process has exited. *)
Record Process : Type := mkProcess {
  proc_state : State;
  proc_exited : bool
}.

Definition serve_with (step : Input -> State -> State)
    (listener : string -> option (Arg -> ClientEvent))
    (a : Arrival) (p : Process) : Process :=
  if proc_exited p then p
  else
    match a with
    | Turn i => mkProcess (step i (proc_state p)) false
    | Packet id name arg =>
        match find_socket id (st_sockets (proc_state p)), listener name with
        | Some _, Some params =>
            if destructures arg
            then mkProcess (step (Receive id (params arg)) (proc_state p)) false
            else mkProcess (proc_state p) true
        | _, _ => p
        end
    end.

Definition serve `{Expo : ExpoSdk} (a : Arrival) (p : Process) : Process :=
  serve_with step listener a p.



(** ** Scenarios *)

Module Scenario.

Definition alice : jsval := JString "alice".
Definition bob : jsval := JString "bob".
Definition lobby : jsval := JString "lobby".
Definition garden : jsval := JString "garden".

Definition alice_session : obj :=
  [("username", alice); ("room", lobby); ("socketId", JString "a");
   ("pushToken", JNull)].

Definition bob_session : obj :=
  [("username", bob); ("room", lobby); ("socketId", JString "b");
   ("pushToken", JNull)].

(** Connection ["a"] is in the lobby as alice. *)
Definition alice_in_lobby : list Input :=
  [Connect "a"; Receive "a" (JoinRoom alice lobby); Settle 0 true].

(** Two connections join the same room; the second join arrives while the
    first handler is still waiting for its history.  The second fetch
    resolves first, then the first one. *)
Definition overlapping_joins : list Input :=
  [Connect "a"; Connect "b";
   Receive "a" (JoinRoom alice lobby);
   Receive "b" (JoinRoom bob lobby);
   Settle 1 true; Settle 0 true].

(** [n] messages sent to the lobby by alice, one per clock tick, each
    saved successfully. *)
Definition chatter (n : nat) : list Input :=
  alice_in_lobby ++
  flat_map
    (fun i =>
       [Tick 1; Receive "a" (SendMessage alice lobby (JString "hello"));
        Settle i true])
    (seq 1 n).

(** A room with 51 saved messages, then a newcomer joins it and gets the
    history. *)
Definition late_joiner : list Input :=
  chatter 51 ++
  [Connect "b"; Receive "b" (JoinRoom bob lobby); Settle 52 true].

(** Alice is in the lobby and the clock reads 1000. *)
Definition before_send : list Input := alice_in_lobby ++ [Tick 1000].

(** Alice sends a message whose save is still in flight five milliseconds
    later. *)
Definition slow_save : list Input :=
  before_send ++
  [Receive "a" (SendMessage alice lobby (JString "hi")); Tick 5].

(** Bob joins the lobby where alice is; his history fetch is in flight. *)
Definition fetch_in_flight : list Input :=
  alice_in_lobby ++ [Connect "b"; Receive "b" (JoinRoom bob lobby)].

(** A member with a registered push token is in the room when another
    connection joins. *)
Definition token_in_room : list Input :=
  [Connect "a"; Connect "b";
   Receive "b" (RegisterPushToken (JString "ExponentPushToken[bob-phone]"));
   Receive "b" (JoinRoom bob lobby); Settle 0 true;
   Receive "a" (JoinRoom alice lobby); Settle 1 true].

(** Three members with a valid, an invalid and another valid token, then a
    message from a fourth whose save is in flight. *)
Definition mixed_tokens : list Input :=
  [Connect "a"; Connect "b"; Connect "c"; Connect "d";
   Receive "b" (RegisterPushToken (JString "ExponentPushToken[bob-phone]"));
   Receive "c" (RegisterPushToken (JString "not-a-token"));
   Receive "d" (RegisterPushToken (JString "ExpoPushToken[dan-phone]"));
   Receive "a" (JoinRoom alice lobby); Settle 0 true;
   Receive "b" (JoinRoom bob lobby); Settle 1 true;
   Receive "c" (JoinRoom (JString "carol") lobby); Settle 2 true;
   Receive "d" (JoinRoom (JString "dan") lobby); Settle 3 true;
   Receive "a" (SendMessage alice lobby (JString "hi"))].

(** Bob is in the lobby and connection ["a"] has just connected. *)
Definition bob_in_lobby : list Input :=
  [Connect "a"; Connect "b";
   Receive "b" (JoinRoom bob lobby); Settle 0 true].

End Scenario.

(** ** Well-formed states *)

Definition session_keys : list string :=
  ["username"; "room"; "socketId"; "pushToken"].

Definition is_session (o : obj) : Prop := keys o = session_keys.

Definition snapshot_ok (h : heap) (k : Pending) : Prop :=
  match k with
  | AwaitFind _ _ _ roomUsers => Forall (fun a => (a < length h)%nat) roomUsers
  | _ => True
  end.

Definition payload_ok (p : Payload) : Prop :=
  match p with
  | OnlineUsers roomUsers => Forall is_session roomUsers
  | _ => True
  end.

(** What every reachable state satisfies: the heap holds session objects
    only, the registry and the suspended snapshots point into the heap,
    the ids of suspended handlers are below the next id, and every
    [onlineUsers] payload sent so far consists of session objects. *)
Record wf (s : State) : Prop := mkWf {
  wf_heap : Forall is_session (st_heap s);
  wf_registry :
    Forall (fun a => (a < length (st_heap s))%nat)
           (Registry.values (st_onlineUsers s));
  wf_snapshots : Forall (fun qk => snapshot_ok (st_heap s) (snd qk)) (st_pending s);
  wf_fresh : Forall (fun qk => (fst qk < st_next s)%nat) (st_pending s);
  wf_outbox : Forall (fun e => payload_ok (em_payload e)) (st_outbox s)
}.

(** The chunks a suspended push loop still has to send, the one in flight
    first. *)
Definition push_batches (p : nat) (s : State) : list (list Notification) :=
  match pending_lookup p (st_pending s) with
  | Some (AwaitPush chunk rest) => chunk :: rest
  | _ => []
  end.

(** The events emitted after the outbox had [n] entries. *)
Definition emitted_since (n : nat) (s : State) : list Emit :=
  drop n (st_outbox s).

Definition is_disconnect_of (id : string) (i : Input) : bool :=
  match i with
  | Disconnect d => String.eqb d id
  | _ => false
  end.

Definition is_settle_of (p : nat) (i : Input) : bool :=
  match i with
  | Settle q _ => Nat.eqb q p
  | _ => false
  end.

(** The socket [id] is connected and belongs to the transport room. *)
Definition in_transport_room (id : string) (room : jsval) (s : State) : bool :=
  match find_socket id (st_sockets s) with
  | Some k => in_room room k
  | None => false
  end.

Definition connected (id : string) (s : State) : bool :=
  match find_socket id (st_sockets s) with
  | Some _ => true
  | None => false
  end.

(** The room recorded for a connection in the registry. *)
Definition registered_room (id : string) (s : State) : option jsval :=
  match Registry.lookup id (st_onlineUsers s) with
  | Some a => Some (get "room" (deref (st_heap s) a))
  | None => None
  end.

Definition timestamp_asc (x y : Message) : Prop :=
  msg_timestamp x <= msg_timestamp y.

(** The histories sent to a socket so far. *)
Definition chatHistory_sent (id : string) (s : State) : list (list Message) :=
  flat_map
    (fun e =>
       match em_target e, em_payload e with
       | ToSocket j, ChatHistory l => if String.eqb j id then [l] else []
       | _, _ => []
       end)
    (st_outbox s).

(** The handler suspended under id [p] is [k]. *)
Definition waiting (p : nat) (k : Pending) (s : State) : Prop :=
  pending_lookup p (st_pending s) = Some k /\ (p < st_next s)%nat.

(** An event addressed to the room is delivered to the socket. *)
Definition hears (id : string) (room : jsval) (e : Emit) : Prop :=
  em_target e = ToRoom room -> id ∈ em_recipients e.

(** The socket is in the transport room and has heard every event
    addressed to the room since the outbox was [base]. *)
Definition reaches (id : string) (room : jsval) (base : list Emit)
    (s : State) : Prop :=
  in_transport_room id room s = true /\
  exists new, st_outbox s = base ++ new /\ Forall (hears id room) new.

(** ** The registry and the sockets *)

(** The registry agrees with the transport: a connection has at most one
    session, a session records the id of its connection, and every
    registered connection is connected. *)
Record consistent (s : State) : Prop := mkConsistent {
  cons_keys : NoDup (map fst (st_onlineUsers s));
  cons_socketId :
    Forall (fun ka => get "socketId" (deref (st_heap s) (snd ka))
                      = JString (fst ka))
           (st_onlineUsers s);
  cons_connected :
    Forall (fun ka => connected (fst ka) s = true) (st_onlineUsers s)
}.

(** The inputs whose handlers assign to or delete from [onlineUsers]. *)
Definition changes_membership (i : Input) : bool :=
  match i with
  | Receive _ (JoinRoom _ _) => true
  | Disconnect _ => true
  | _ => false
  end.

(** A [joinRoom] event of the connection. *)
Definition is_join_of (id : string) (i : Input) : bool :=
  match i with
  | Receive j (JoinRoom _ _) => String.eqb j id
  | _ => false
  end.

(** The connection ids of a list of sessions. *)
Definition socket_ids (l : list obj) : list jsval := map (get "socketId") l.

(** The push calls of one [sendMessage] settle one after the other: the
    continuation of each is suspended under the next free id. *)
Fixpoint settle_from (p : nat) (outcomes : list bool) : list Input :=
  match outcomes with
  | [] => []
  | ok :: outcomes' => Settle p ok :: settle_from (S p) outcomes'
  end.

(** What the chunk loop logs for the outcome of one push call. *)
Definition push_log (ok : bool) : LogEntry :=
  if ok then LogPushSent else ErrPushSend.

(** ** The earlier revision of the server

    The handlers of the revision without push notifications.  Its
    [typing] handler, the first part of [sendMessage] and the second part
    of [joinRoom] are those of [server.js]; its [connection] and
    [disconnect] handlers differ in the line they log, the session object
    has no [pushToken], [sendMessage] ends after its broadcast, and no
    listener exists for [registerPushToken]. *)

Module Legacy.

(** [io.on('connection', socket => ...)] *)
Definition on_connection (id : string) (s : State) : State :=
  match find_socket id (st_sockets s) with
  | Some _ => s
  | None =>
      console (LegacyLogConnected id)
        (with_sockets
           (st_sockets s ++
            [mkSocket id JUndefined JUndefined JUndefined [JString id]]) s)
  end.

(** The object literal [{ username, room, socketId: socket.id }]. *)
Definition new_session (id : string) (username room : jsval) : obj :=
  [("username", username); ("room", room); ("socketId", JString id)].

(** [socket.on('joinRoom', async ({ username, room }) => ...)], up to
    [await Message.find(...)]. *)
Definition on_joinRoom (id : string) (username room : jsval)
    (s : State) : State :=
  let s1 :=
    with_sockets
      (update_socket id
         (fun k =>
            let k' := socket_join room k in
            mkSocket (sock_id k') (sock_pushToken k') username room
                     (sock_rooms k'))
         (st_sockets s)) s in
  let '(a, h) := alloc (new_session id username room) (st_heap s1) in
  let s2 :=
    with_onlineUsers (Registry.assign id a (st_onlineUsers s1))
                     (with_heap h s1) in
  let roomUsers := room_users room s2 in
  suspend (AwaitFind id username room roomUsers) s2.

(** The rest of the [sendMessage] handler, once [save] has settled. *)
Definition sendMessage_resume (username room message : jsval)
    (newMessage : Message) (ok : bool) (s : State) : State :=
  if ok then
    let s1 := with_store (st_store s ++ [newMessage]) s in
    let s2 :=
      emit (ToRoom room)
           (MessageEv (mkMessageEvent username message
                                      (msg_timestamp newMessage) false))
           s1 in
    console (LegacyLogSent username room message) s2
  else console ErrSending s.

(** [socket.on('disconnect', () => ...)] *)
Definition on_disconnect (id : string) (s : State) : State :=
  let s0 := with_sockets (drop_socket id (st_sockets s)) s in
  match Registry.lookup id (st_onlineUsers s0) with
  | None => s0
  | Some a =>
      let user := deref (st_heap s0) a in
      let username := get "username" user in
      let room := get "room" user in
      let s1 := with_onlineUsers (Registry.remove id (st_onlineUsers s0)) s0 in
      let roomUsers := room_users room s1 in
      let s2 :=
        emit (ToRoom room)
             (system_message (to_text username +:+ " has left the room") s1)
             s1 in
      let s3 :=
        emit (ToRoom room) (OnlineUsers (sessions (st_heap s2) roomUsers)) s2 in
      console (LegacyLogDisconnected username room) s3
  end.

(** An event without a listener is dropped. *)
Definition receive (id : string) (e : ClientEvent) (s : State) : State :=
  match e with
  | RegisterPushToken _ => s
  | JoinRoom u r => on_joinRoom id u r s
  | SendMessage u r m => on_sendMessage id u r m s
  | Typing u r t => on_typing id u r t s
  end.

Definition resume (k : Pending) (ok : bool) (s : State) : State :=
  match k with
  | AwaitFind id u r roomUsers => joinRoom_resume id u r roomUsers ok s
  | AwaitSave _ u r m newMessage => sendMessage_resume u r m newMessage ok s
  | AwaitPush _ _ => s
  end.

Definition step (i : Input) (s : State) : State :=
  match i with
  | Connect id => on_connection id s
  | Receive id e =>
      match find_socket id (st_sockets s) with
      | Some _ => receive id e s
      | None => s
      end
  | Disconnect id =>
      match find_socket id (st_sockets s) with
      | Some _ => on_disconnect id s
      | None => s
      end
  | Settle p ok =>
      match pending_lookup p (st_pending s) with
      | Some k => resume k ok (with_pending (pending_remove p (st_pending s)) s)
      | None => s
      end
  | Tick dt => with_clock (st_clock s + Z.pos dt) s
  end.

Definition run (tr : list Input) (s : State) : State :=
  fold_left (fun acc i => step i acc) tr s.

Definition session_keys : list string := ["username"; "room"; "socketId"].

(** The listeners of the earlier revision. *)
Definition listener (name : string) : option (Arg -> ClientEvent) :=
  if String.eqb name "joinRoom" then
    Some (fun a => JoinRoom (prop "username" a) (prop "room" a))
  else if String.eqb name "sendMessage" then
    Some (fun a => SendMessage (prop "username" a) (prop "room" a)
                               (prop "message" a))
  else if String.eqb name "typing" then
    Some (fun a => Typing (prop "username" a) (prop "room" a)
                          (prop "isTyping" a))
  else None.

Definition serve (a : Arrival) (p : Process) : Process :=
  serve_with step listener a p.

End Legacy.

(** A session of the earlier revision. *)
Definition legacy_session (o : obj) : Prop := keys o = Legacy.session_keys.

(** An object without its [pushToken] property. *)
Definition strip (o : obj) : obj :=
  List.filter (fun kv => negb (String.eqb (fst kv) "pushToken")) o.

Definition strip_payload (p : Payload) : Payload :=
  match p with
  | OnlineUsers roomUsers => OnlineUsers (map strip roomUsers)
  | _ => p
  end.

Definition strip_emit (e : Emit) : Emit :=
  mkEmit (em_target e) (em_recipients e) (strip_payload (em_payload e)).

(** The line of the earlier revision that stands for a line of
    [server.js]: three lines are worded differently, the others are the
    same. *)
Definition legacy_log (e : LogEntry) : LogEntry :=
  match e with
  | LogConnected id => LegacyLogConnected id
  | LogSent u r m => LegacyLogSent u r m
  | LogDisconnected u r => LegacyLogDisconnected u r
  | _ => e
  end.

(** A state of [server.js] seen as a state of the earlier revision:
    without the [pushToken] of its sessions, in the heap and in the
    [onlineUsers] events sent, and with the console lines reworded. *)
Definition strip_state (s : State) : State :=
  mkState (map strip (st_heap s)) (st_onlineUsers s) (st_sockets s)
          (st_store s) (st_clock s) (map strip_emit (st_outbox s))
          (map legacy_log (st_console s)) (st_pushed s) (st_pending s)
          (st_next s).

Definition registers_token (i : Input) : bool :=
  match i with
  | Receive _ (RegisterPushToken _) => true
  | _ => false
  end.

(** A state in which no push token has been registered: no socket and no
    session holds one, and no push loop is suspended. *)
Record quiet (s : State) : Prop := mkQuiet {
  q_sockets : Forall (fun k => sock_pushToken k = JUndefined) (st_sockets s);
  q_heap : Forall (fun o => truthy (get "pushToken" o) = false) (st_heap s);
  q_pending :
    Forall (fun qk => match snd qk with
                      | AwaitPush _ _ => False
                      | _ => True
                      end)
           (st_pending s)
}.

(** A state whose session objects all satisfy [P]: the heap and the
    [onlineUsers] payloads sent hold such objects only, and the registry
    and the suspended snapshots point into the heap. *)
Record shaped (P : obj -> Prop) (s : State) : Prop := mkShaped {
  sh_heap : Forall P (st_heap s);
  sh_registry :
    Forall (fun a => (a < length (st_heap s))%nat)
           (Registry.values (st_onlineUsers s));
  sh_snapshots :
    Forall (fun qk => snapshot_ok (st_heap s) (snd qk)) (st_pending s);
  sh_outbox :
    Forall (fun e => match em_payload e with
                     | OnlineUsers roomUsers => Forall P roomUsers
                     | _ => True
                     end)
           (st_outbox s)
}.

(** ** Lists, objects and the registry *)

Lemma Forall_lfilter {A : Type} (P : A -> Prop) (f : A -> bool) (l : list A) :
  Forall P l -> Forall P (List.filter f l).
Proof.
  induction 1 as [|x l Hx _ IH]; simpl; [constructor|].
  destruct (f x); [constructor|]; assumption.
Qed.

Lemma set_pushToken_session (v : jsval) (o : obj) :
  is_session o -> is_session (set "pushToken" v o).
Proof.
  unfold is_session, keys, session_keys.
  destruct o as [|[k1 v1] [|[k2 v2] [|[k3 v3] [|[k4 v4] [|? ?]]]]];
    simpl; intros H; try discriminate.
  injection H as -> -> -> ->. reflexivity.
Qed.

Lemma new_session_is_session (id : string) (u r t : jsval) :
  is_session (new_session id u r t).
Proof. reflexivity. Qed.

Lemma assign_values (P : loc -> Prop) (id : string) (a : loc) (r : Registry.t) :
  P a -> Forall P (Registry.values r) ->
  Forall P (Registry.values (Registry.assign id a r)).
Proof.
  intros Ha. unfold Registry.values.
  induction r as [|[k b] r IH]; simpl; intros H.
  - repeat constructor. exact Ha.
  - inversion H as [|? ? Hb Hr]; subst.
    destruct (String.eqb id k); simpl; constructor; auto.
Qed.

Lemma remove_values (P : loc -> Prop) (id : string) (r : Registry.t) :
  Forall P (Registry.values r) ->
  Forall P (Registry.values (Registry.remove id r)).
Proof.
  unfold Registry.values.
  induction r as [|[k b] r IH]; simpl; intros H; [constructor|].
  inversion H as [|? ? Hb Hr]; subst.
  destruct (String.eqb id k); simpl; [|constructor]; auto.
Qed.

Lemma lookup_values (P : loc -> Prop) (id : string) (a : loc) (r : Registry.t) :
  Forall P (Registry.values r) -> Registry.lookup id r = Some a -> P a.
Proof.
  unfold Registry.values.
  induction r as [|[k b] r IH]; simpl; intros H E; [discriminate|].
  inversion H as [|? ? Hb Hr]; subst.
  destruct (String.eqb id k); [injection E as <-|]; auto.
Qed.

Lemma lookup_assign (id : string) (a : loc) (r : Registry.t) :
  Registry.lookup id (Registry.assign id a r) = Some a.
Proof.
  induction r as [|[k b] r IH]; simpl.
  - now rewrite String.eqb_refl.
  - destruct (String.eqb id k) eqn:E; simpl; rewrite E; auto.
Qed.

Lemma deref_session (h : heap) (a : loc) :
  Forall is_session h -> (a < length h)%nat -> is_session (deref h a).
Proof.
  intros Hh Ha. unfold deref.
  destruct (lookup_lt_is_Some_2 h a Ha) as [o Ho].
  rewrite Ho. simpl.
  exact (Forall_lookup_1 _ _ _ _ Hh Ho).
Qed.

Lemma sessions_are_sessions (h : heap) (l : list loc) :
  Forall is_session h -> Forall (fun a => (a < length h)%nat) l ->
  Forall is_session (sessions h l).
Proof.
  intros Hh. unfold sessions. induction 1; simpl; constructor; auto.
  now apply deref_session.
Qed.

Lemma deref_alloc_new (h : heap) (o : obj) : deref (h ++ [o]) (length h) = o.
Proof.
  unfold deref. rewrite lookup_app_r by lia.
  now rewrite Nat.sub_diag.
Qed.


Lemma pending_lookup_remove_ne (p q : nat) (l : list (nat * Pending)) :
  p <> q -> pending_lookup p (pending_remove q l) = pending_lookup p l.
Proof.
  intros Hne. induction l as [|[q' k] l IH]; simpl; [reflexivity|].
  destruct (Nat.eqb q q') eqn:E; simpl.
  - apply Nat.eqb_eq in E. subst q'.
    destruct (Nat.eqb p q) eqn:E'; [apply Nat.eqb_eq in E'; contradiction|].
    exact IH.
  - destruct (Nat.eqb p q'); [reflexivity|exact IH].
Qed.

Lemma pending_lookup_fresh (p n : nat) (l : list (nat * Pending)) :
  Forall (fun qk => (fst qk < n)%nat) l -> (n <= p)%nat ->
  pending_lookup p l = None.
Proof.
  induction 1 as [|[q k] l Hq _ IH]; simpl; intros Hp; [reflexivity|].
  simpl in Hq. destruct (Nat.eqb p q) eqn:E; [apply Nat.eqb_eq in E; lia|].
  auto.
Qed.

Lemma pending_lookup_In (p : nat) (k : Pending) (l : list (nat * Pending)) :
  pending_lookup p l = Some k -> In (p, k) l.
Proof.
  induction l as [|[q k'] l IH]; simpl; [discriminate|].
  destruct (Nat.eqb p q) eqn:E.
  - apply Nat.eqb_eq in E. subst q. intros [= ->]. now left.
  - intros H. right. auto.
Qed.

(** ** Well-formedness is preserved by every turn of the event loop *)

Lemma snapshot_ok_mono (h h' : heap) (k : Pending) :
  (length h <= length h')%nat -> snapshot_ok h k -> snapshot_ok h' k.
Proof.
  intros Hle. destruct k; simpl; auto.
  intros H. eapply Forall_impl; [exact H|]. simpl. intros a Ha. lia.
Qed.

Lemma wf_init : wf init.
Proof. split; simpl; constructor. Qed.

Lemma wf_console (e : LogEntry) (s : State) : wf s -> wf (console e s).
Proof. intros [H1 H2 H3 H4 H5]. split; assumption. Qed.

Lemma wf_with_console (l : list LogEntry) (s : State) :
  wf s -> wf (with_console l s).
Proof. intros [H1 H2 H3 H4 H5]. split; assumption. Qed.

Lemma wf_with_sockets (l : list Socket) (s : State) :
  wf s -> wf (with_sockets l s).
Proof. intros [H1 H2 H3 H4 H5]. split; assumption. Qed.

Lemma wf_with_store (l : list Message) (s : State) :
  wf s -> wf (with_store l s).
Proof. intros [H1 H2 H3 H4 H5]. split; assumption. Qed.

Lemma wf_with_clock (c : Z) (s : State) : wf s -> wf (with_clock c s).
Proof. intros [H1 H2 H3 H4 H5]. split; assumption. Qed.

Lemma wf_with_pushed (l : list (list Notification)) (s : State) :
  wf s -> wf (with_pushed l s).
Proof. intros [H1 H2 H3 H4 H5]. split; assumption. Qed.

Lemma wf_emit (t : Target) (p : Payload) (s : State) :
  wf s -> payload_ok p -> wf (emit t p s).
Proof.
  intros [H1 H2 H3 H4 H5] Hp. split; try assumption.
  simpl. apply Forall_app. split; [assumption|]. repeat constructor. exact Hp.
Qed.

Lemma wf_suspend (k : Pending) (s : State) :
  wf s -> snapshot_ok (st_heap s) k -> wf (suspend k s).
Proof.
  intros [H1 H2 H3 H4 H5] Hk. split; try assumption; simpl.
  - constructor; assumption.
  - constructor; simpl; [lia|].
    eapply Forall_impl; [exact H4|]. simpl. intros qk Hq. lia.
Qed.

Lemma wf_forget (p : nat) (s : State) :
  wf s -> wf (with_pending (pending_remove p (st_pending s)) s).
Proof.
  intros [H1 H2 H3 H4 H5]. split; try assumption; simpl;
    unfold pending_remove; now apply Forall_lfilter.
Qed.

Lemma wf_remove (id : string) (s : State) :
  wf s -> wf (with_onlineUsers (Registry.remove id (st_onlineUsers s)) s).
Proof.
  intros [H1 H2 H3 H4 H5]. split; try assumption; simpl.
  now apply remove_values.
Qed.

Lemma wf_room_users (room : jsval) (s : State) :
  wf s -> Forall is_session (sessions (st_heap s) (room_users room s)).
Proof.
  intros [H1 H2 H3 H4 H5]. apply sessions_are_sessions; [assumption|].
  unfold room_users. now apply Forall_lfilter.
Qed.

Section Preservation.

Context `{Expo : ExpoSdk}.

Lemma wf_connection (id : string) (s : State) : wf s -> wf (on_connection id s).
Proof.
  intros H. unfold on_connection. destruct (find_socket _ _); [assumption|].
  now apply wf_console, wf_with_sockets.
Qed.

Lemma wf_registerPushToken (id : string) (t : jsval) (s : State) :
  wf s -> wf (on_registerPushToken id t s).
Proof.
  intros H. unfold on_registerPushToken. apply wf_console.
  set (s1 := with_sockets _ s).
  assert (H1 : wf s1) by now apply wf_with_sockets.
  destruct (Registry.lookup id (st_onlineUsers s1)) as [a|] eqn:E; [|assumption].
  destruct H1 as [G1 G2 G3 G4 G5].
  assert (Ha : (a < length (st_heap s1))%nat)
    by exact (lookup_values _ _ _ _ G2 E).
  split; simpl; try assumption.
  - apply Forall_insert; [assumption|].
    apply set_pushToken_session. now apply deref_session.
  - rewrite length_insert. assumption.
  - eapply Forall_impl; [exact G3|]. simpl. intros qk.
    apply snapshot_ok_mono. now rewrite length_insert.
Qed.

Lemma wf_joinRoom (id : string) (u r : jsval) (s : State) :
  wf s -> wf (on_joinRoom id u r s).
Proof.
  intros H. unfold on_joinRoom. set (s1 := with_sockets _ s).
  assert (H1 : wf s1) by now apply wf_with_sockets.
  set (o := new_session _ _ _ _). simpl.
  set (s2 := with_onlineUsers _ _).
  assert (H2 : wf s2).
  { destruct H1 as [G1 G2 G3 G4 G5]. split; simpl; try assumption.
    - apply Forall_app. split; [assumption|]. repeat constructor.
    - rewrite length_app. simpl. apply assign_values; [lia|].
      eapply Forall_impl; [exact G2|]. simpl. intros a. lia.
    - eapply Forall_impl; [exact G3|]. simpl. intros qk.
      apply snapshot_ok_mono. rewrite length_app. lia. }
  apply wf_suspend; [assumption|]. simpl.
  destruct H2 as [G1 G2 G3 G4 G5]. unfold room_users.
  now apply Forall_lfilter.
Qed.

Lemma wf_joinRoom_resume (id : string) (u r : jsval) (l : list loc)
    (ok : bool) (s : State) :
  wf s -> Forall (fun a => (a < length (st_heap s))%nat) l ->
  wf (joinRoom_resume id u r l ok s).
Proof.
  intros H Hl. unfold joinRoom_resume. destruct ok; [|now apply wf_console].
  apply wf_console. apply wf_emit.
  - apply wf_emit; [|exact I]. apply wf_emit; [assumption|exact I].
  - simpl. apply sessions_are_sessions; [apply H|assumption].
Qed.

Lemma wf_send_chunks (chunks : list (list Notification)) (s : State) :
  wf s -> wf (send_chunks chunks s).
Proof.
  intros H. destruct chunks as [|c rest]; simpl; [assumption|].
  apply wf_suspend; [|exact I]. now apply wf_with_pushed.
Qed.

Lemma wf_sendMessage_resume (u r m : jsval) (doc : Message) (ok : bool)
    (s : State) :
  wf s -> wf (sendMessage_resume u r m doc ok s).
Proof.
  intros H. unfold sendMessage_resume. destruct ok; [|now apply wf_console].
  set (s3 := console _ _).
  assert (H3 : wf s3).
  { apply wf_console, wf_emit; [|exact I]. now apply wf_with_store. }
  destruct (List.filter _ _) as [|x l]; [assumption|].
  destruct (build_notifications _ _ _ _) as [ns errs].
  now apply wf_send_chunks, wf_with_console.
Qed.

Lemma wf_disconnect (id : string) (s : State) : wf s -> wf (on_disconnect id s).
Proof.
  intros H. unfold on_disconnect. set (s0 := with_sockets _ s).
  assert (H0 : wf s0) by now apply wf_with_sockets.
  destruct (Registry.lookup id (st_onlineUsers s0)) as [a|]; [|assumption].
  set (s1 := with_onlineUsers _ s0).
  assert (H1 : wf s1) by now apply wf_remove.
  apply wf_console, wf_emit; [now apply wf_emit|].
  simpl. now apply (wf_room_users _ s1).
Qed.

Lemma wf_step (i : Input) (s : State) : wf s -> wf (step i s).
Proof.
  intros H. destruct i as [id|id e|id|p ok|dt]; simpl.
  - now apply wf_connection.
  - destruct (find_socket _ _); [|assumption].
    destruct e; simpl.
    + now apply wf_registerPushToken.
    + now apply wf_joinRoom.
    + apply wf_suspend; [assumption|exact I].
    + apply wf_emit; [assumption|exact I].
  - destruct (find_socket _ _); [|assumption]. now apply wf_disconnect.
  - destruct (pending_lookup p (st_pending s)) as [k|] eqn:E; [|assumption].
    pose proof (wf_forget p s H) as H'.
    destruct k as [id u r l|id u r m doc|c rest]; simpl.
    + apply wf_joinRoom_resume; [assumption|]. simpl.
      apply pending_lookup_In, list_elem_of_In in E.
      pose proof (wf_snapshots s H) as G.
      rewrite Forall_forall in G. exact (G _ E).
    + now apply wf_sendMessage_resume.
    + now apply wf_send_chunks, wf_console.
  - now apply wf_with_clock.
Qed.

Lemma wf_run (tr : list Input) (s : State) : wf s -> wf (run tr s).
Proof.
  revert s. induction tr as [|i tr IH]; simpl; intros s H; [assumption|].
  apply IH. now apply wf_step.
Qed.

Lemma wf_reachable (tr : list Input) : wf (run tr init).
Proof. apply wf_run, wf_init. Qed.

End Preservation.

(** ** A suspended handler stays suspended until its promise settles *)

Lemma waiting_frame (p : nat) (k : Pending) (s s' : State) :
  st_pending s' = st_pending s -> st_next s' = st_next s ->
  waiting p k s -> waiting p k s'.
Proof. unfold waiting. intros -> ->. auto. Qed.

Lemma waiting_suspend (p : nat) (k k' : Pending) (s : State) :
  waiting p k s -> waiting p k (suspend k' s).
Proof.
  intros [Hp Hlt]. split; simpl; [|lia].
  destruct (Nat.eqb p (st_next s)) eqn:E; [apply Nat.eqb_eq in E; lia|].
  exact Hp.
Qed.

Lemma waiting_new (k : Pending) (s : State) :
  waiting (st_next s) k (suspend k s).
Proof. split; simpl; [now rewrite Nat.eqb_refl|lia]. Qed.

Lemma waiting_forget (p q : nat) (k : Pending) (s : State) :
  p <> q -> waiting p k s ->
  waiting p k (with_pending (pending_remove q (st_pending s)) s).
Proof.
  intros Hne [Hp Hlt]. split; simpl; [|assumption].
  now rewrite pending_lookup_remove_ne.
Qed.

Section Suspended.

Context `{Expo : ExpoSdk}.

Lemma waiting_send_chunks (p : nat) (k : Pending)
    (chunks : list (list Notification)) (s : State) :
  waiting p k s -> waiting p k (send_chunks chunks s).
Proof.
  intros H. destruct chunks as [|c rest]; simpl; [assumption|].
  apply waiting_suspend. revert H. now apply waiting_frame.
Qed.

Lemma waiting_resume (p : nat) (k k' : Pending) (ok : bool) (s : State) :
  waiting p k s -> waiting p k (resume k' ok s).
Proof.
  intros H. destruct k' as [id u r l|id u r m doc|c rest]; simpl.
  - unfold joinRoom_resume. destruct ok; revert H; now apply waiting_frame.
  - unfold sendMessage_resume.
    destruct ok; [|revert H; now apply waiting_frame].
    set (s3 := console _ _).
    assert (H3 : waiting p k s3) by (revert H; now apply waiting_frame).
    destruct (List.filter _ _); [assumption|].
    destruct (build_notifications _ _ _ _) as [ns errs].
    apply waiting_send_chunks. revert H3. now apply waiting_frame.
  - apply waiting_send_chunks. revert H. now apply waiting_frame.
Qed.

Lemma waiting_step (p : nat) (k : Pending) (i : Input) (s : State) :
  is_settle_of p i = false -> waiting p k s -> waiting p k (step i s).
Proof.
  intros Hi H. destruct i as [id|id e|id|q ok|dt]; simpl.
  - unfold on_connection. destruct (find_socket _ _); [assumption|].
    revert H. now apply waiting_frame.
  - destruct (find_socket _ _); [|assumption].
    destruct e as [t|u r|u r m|u r t]; simpl.
    + unfold on_registerPushToken. simpl.
      destruct (Registry.lookup _ _); revert H; now apply waiting_frame.
    + unfold on_joinRoom. simpl. apply waiting_suspend.
      revert H. now apply waiting_frame.
    + now apply waiting_suspend.
    + revert H. now apply waiting_frame.
  - destruct (find_socket _ _); [|assumption].
    unfold on_disconnect. simpl.
    destruct (Registry.lookup _ _); revert H; now apply waiting_frame.
  - simpl in Hi. apply Nat.eqb_neq in Hi.
    destruct (pending_lookup q (st_pending s)); [|assumption].
    apply waiting_resume. apply waiting_forget; [congruence|assumption].
  - revert H. now apply waiting_frame.
Qed.

Lemma waiting_run (p : nat) (k : Pending) (tr : list Input) (s : State) :
  forallb (fun i => negb (is_settle_of p i)) tr = true ->
  waiting p k s -> waiting p k (run tr s).
Proof.
  revert s. induction tr as [|i tr IH]; simpl; intros s Htr H; [assumption|].
  apply andb_true_iff in Htr as [Hi Htr]. apply negb_true_iff in Hi.
  apply IH; [assumption|]. now apply waiting_step.
Qed.

End Suspended.

(** ** Transport rooms *)

Lemma find_socket_id (id : string) (k : Socket) (l : list Socket) :
  find_socket id l = Some k -> sock_id k = id /\ In k l.
Proof.
  unfold find_socket. intros H. apply find_some in H as [Hin Heq].
  apply String.eqb_eq in Heq. auto.
Qed.

Lemma deliver_in_room (id : string) (room : jsval) (s : State) :
  in_transport_room id room s = true ->
  id ∈ deliver (ToRoom room) (st_sockets s).
Proof.
  unfold in_transport_room.
  destruct (find_socket id (st_sockets s)) as [k|] eqn:E; [|discriminate].
  intros Hk. apply find_socket_id in E as [<- Hin]. simpl.
  apply list_elem_of_In, in_map, filter_In. auto.
Qed.

Lemma reaches_frame (id : string) (room : jsval) (base : list Emit)
    (s s' : State) :
  st_sockets s' = st_sockets s -> st_outbox s' = st_outbox s ->
  reaches id room base s -> reaches id room base s'.
Proof.
  unfold reaches, in_transport_room. intros -> ->. auto.
Qed.

Lemma reaches_emit (id : string) (room : jsval) (base : list Emit)
    (t : Target) (p : Payload) (s : State) :
  reaches id room base s -> reaches id room base (emit t p s).
Proof.
  intros [Hin (new & Hout & Hnew)]. split; [exact Hin|].
  exists (new ++ [mkEmit t (deliver t (st_sockets s)) p]). split.
  - simpl. rewrite Hout. now rewrite app_assoc.
  - apply Forall_app. split; [assumption|]. repeat constructor.
    unfold hears. simpl. intros ->. now apply deliver_in_room.
Qed.

Lemma reaches_console (id : string) (room : jsval) (base : list Emit)
    (e : LogEntry) (s : State) :
  reaches id room base s -> reaches id room base (console e s).
Proof. now apply reaches_frame. Qed.

Lemma reaches_suspend (id : string) (room : jsval) (base : list Emit)
    (k : Pending) (s : State) :
  reaches id room base s -> reaches id room base (suspend k s).
Proof. now apply reaches_frame. Qed.

Lemma reaches_with_heap (id : string) (room : jsval) (base : list Emit)
    (h : heap) (s : State) :
  reaches id room base s -> reaches id room base (with_heap h s).
Proof. now apply reaches_frame. Qed.

Lemma reaches_with_onlineUsers (id : string) (room : jsval)
    (base : list Emit) (r : Registry.t) (s : State) :
  reaches id room base s -> reaches id room base (with_onlineUsers r s).
Proof. now apply reaches_frame. Qed.

Lemma reaches_rebase (id : string) (room : jsval) (base : list Emit)
    (s : State) :
  reaches id room base s -> reaches id room (st_outbox s) s.
Proof.
  intros [Hin _]. split; [exact Hin|]. exists []. split; [|constructor].
  now rewrite app_nil_r.
Qed.

Lemma find_socket_app (id : string) (k : Socket) (l l' : list Socket) :
  find_socket id l = Some k -> find_socket id (l ++ l') = Some k.
Proof.
  unfold find_socket. induction l as [|x l IH]; simpl; [discriminate|].
  destruct (String.eqb (sock_id x) id); auto.
Qed.

Lemma find_socket_update (id j : string) (f : Socket -> Socket)
    (l : list Socket) :
  (forall k, sock_id (f k) = sock_id k) ->
  find_socket id (update_socket j f l) =
  match find_socket id l with
  | Some k => Some (if String.eqb (sock_id k) j then f k else k)
  | None => None
  end.
Proof.
  intros Hf. unfold find_socket, update_socket.
  induction l as [|x l IH]; simpl; [reflexivity|].
  destruct (String.eqb (sock_id x) j) eqn:Ej; simpl.
  - rewrite Hf. destruct (String.eqb (sock_id x) id); [now rewrite Ej|exact IH].
  - destruct (String.eqb (sock_id x) id); [now rewrite Ej|exact IH].
Qed.

Lemma find_socket_drop (id j : string) (l : list Socket) :
  String.eqb j id = false ->
  find_socket id (drop_socket j l) = find_socket id l.
Proof.
  intros Hne. unfold find_socket, drop_socket.
  induction l as [|x l IH]; simpl; [reflexivity|].
  destruct (String.eqb (sock_id x) j) eqn:Ej; simpl.
  - apply String.eqb_eq in Ej. rewrite Ej, Hne. exact IH.
  - destruct (String.eqb (sock_id x) id); [reflexivity|exact IH].
Qed.

Lemma in_room_join (room room' : jsval) (k : Socket) :
  in_room room k = true -> in_room room (socket_join room' k) = true.
Proof.
  unfold socket_join, in_room. simpl. intros H.
  destruct (existsb (strict_eq room') (sock_rooms k)); [exact H|].
  rewrite existsb_app, H. reflexivity.
Qed.

Lemma in_room_joined (room : jsval) (k : Socket) :
  in_room room (socket_join room k) = true.
Proof.
  unfold socket_join, in_room. simpl.
  destruct (existsb (strict_eq room) (sock_rooms k)) eqn:E; [exact E|].
  rewrite existsb_app. simpl.
  assert (H : strict_eq room room = true).
  { destruct room as [| |b|x]; simpl; auto using String.eqb_refl.
    now destruct b. }
  rewrite H. now rewrite orb_true_r.
Qed.

(** Sockets change only by growing their rooms, unless they disconnect. *)
Lemma reaches_sockets (id : string) (room : jsval) (base : list Emit)
    (l : list Socket) (s : State) :
  (forall k, find_socket id (st_sockets s) = Some k ->
             exists k', find_socket id l = Some k' /\
                        (in_room room k = true -> in_room room k' = true)) ->
  reaches id room base s -> reaches id room base (with_sockets l s).
Proof.
  intros Hl [Hin Hnew]. split; [|exact Hnew].
  unfold in_transport_room in *. simpl.
  destruct (find_socket id (st_sockets s)) as [k|]; [|discriminate].
  destruct (Hl k eq_refl) as (k' & -> & Hk'). auto.
Qed.

Section Rooms.

Context `{Expo : ExpoSdk}.

Lemma reaches_send_chunks (id : string) (room : jsval) (base : list Emit)
    (chunks : list (list Notification)) (s : State) :
  reaches id room base s -> reaches id room base (send_chunks chunks s).
Proof.
  intros H. destruct chunks; simpl; [assumption|].
  revert H. now apply reaches_frame.
Qed.

Lemma reaches_resume (id : string) (room : jsval) (base : list Emit)
    (k : Pending) (ok : bool) (s : State) :
  reaches id room base s -> reaches id room base (resume k ok s).
Proof.
  intros H. destruct k as [j u r l|j u r m doc|c rest]; simpl.
  - unfold joinRoom_resume. destruct ok.
    + apply reaches_console. now repeat apply reaches_emit.
    + revert H. now apply reaches_frame.
  - unfold sendMessage_resume.
    destruct ok; [|revert H; now apply reaches_frame].
    set (s3 := console _ _).
    assert (H3 : reaches id room base s3).
    { apply reaches_console, reaches_emit. revert H. now apply reaches_frame. }
    destruct (List.filter _ _); [assumption|].
    destruct (build_notifications _ _ _ _) as [ns errs].
    apply reaches_send_chunks. revert H3. now apply reaches_frame.
  - apply reaches_send_chunks. revert H. now apply reaches_frame.
Qed.

Lemma reaches_step (id : string) (room : jsval) (base : list Emit)
    (i : Input) (s : State) :
  is_disconnect_of id i = false ->
  reaches id room base s -> reaches id room base (step i s).
Proof.
  intros Hi H. destruct i as [j|j e|j|q ok|dt]; simpl.
  - unfold on_connection. destruct (find_socket j _); [assumption|].
    apply reaches_console, reaches_sockets; [|assumption].
    intros k Hk. exists k. split; [now apply find_socket_app|auto].
  - destruct (find_socket j _); [|assumption].
    destruct e as [t|u r|u r m|u r t]; simpl.
    + unfold on_registerPushToken. simpl.
      set (s1 := with_sockets _ s).
      assert (H1 : reaches id room base s1).
      { apply reaches_sockets; [|assumption]. intros k Hk.
        rewrite find_socket_update, Hk by reflexivity.
        eexists. split; [reflexivity|].
        destruct (String.eqb (sock_id k) j); auto. }
      destruct (Registry.lookup _ _); revert H1; now apply reaches_frame.
    + unfold on_joinRoom. simpl.
      apply reaches_suspend, reaches_with_onlineUsers, reaches_with_heap.
      apply reaches_sockets; [|assumption]. intros k Hk.
      rewrite find_socket_update, Hk by reflexivity.
      eexists. split; [reflexivity|].
      destruct (String.eqb (sock_id k) j); [|auto].
      intros Hr. exact (in_room_join room r k Hr).
    + revert H. now apply reaches_frame.
    + now apply reaches_emit.
  - simpl in Hi. destruct (find_socket j _) as [kj|]; [|assumption].
    unfold on_disconnect.
    set (s0 := with_sockets _ s).
    assert (H0 : reaches id room base s0).
    { apply reaches_sockets; [|assumption]. intros k Hk.
      exists k. split; [|auto]. now rewrite find_socket_drop. }
    destruct (Registry.lookup _ _); [|assumption].
    apply reaches_console, reaches_emit, reaches_emit.
    revert H0. now apply reaches_frame.
  - destruct (pending_lookup q (st_pending s)); [|assumption].
    apply reaches_resume. revert H. now apply reaches_frame.
  - revert H. now apply reaches_frame.
Qed.

Lemma reaches_run (id : string) (room : jsval) (base : list Emit)
    (tr : list Input) (s : State) :
  forallb (fun i => negb (is_disconnect_of id i)) tr = true ->
  reaches id room base s -> reaches id room base (run tr s).
Proof.
  revert s. induction tr as [|i tr IH]; simpl; intros s Htr H; [assumption|].
  apply andb_true_iff in Htr as [Hi Htr]. apply negb_true_iff in Hi.
  apply IH; [assumption|]. now apply reaches_step.
Qed.

End Rooms.

(** ** The history query *)

Lemma strict_eq_eq (a b : jsval) : strict_eq a b = true <-> a = b.
Proof.
  destruct a as [| |x|x], b as [| |y|y]; simpl; split;
    try discriminate; try reflexivity.
  - intros H. apply Bool.eqb_prop in H. now subst.
  - intros [= ->]. apply Bool.eqb_reflx.
  - intros H. apply String.eqb_eq in H. now subst.
  - intros [= ->]. apply String.eqb_refl.
Qed.

Lemma find_room (room : jsval) (st : list Message) :
  Forall (fun m => msg_room m = room) (Store.find room st).
Proof.
  unfold Store.find. induction st as [|m st IH]; simpl; [constructor|].
  destruct (strict_eq (msg_room m) room) eqn:E; [|exact IH].
  constructor; [now apply strict_eq_eq|exact IH].
Qed.

Lemma insert_asc_perm (m : Message) (l : list Message) :
  Store.insert_asc m l ≡ₚ m :: l.
Proof.
  induction l as [|x l IH]; simpl; [reflexivity|].
  destruct (msg_timestamp m <=? msg_timestamp x); [reflexivity|].
  rewrite IH. apply Permutation_swap.
Qed.

Lemma sort_asc_perm (l : list Message) : Store.sort_asc l ≡ₚ l.
Proof.
  induction l as [|m l IH]; simpl; [reflexivity|].
  rewrite insert_asc_perm. now rewrite IH.
Qed.

Lemma insert_asc_sorted (m : Message) (l : list Message) :
  StronglySorted timestamp_asc l ->
  StronglySorted timestamp_asc (Store.insert_asc m l).
Proof.
  induction 1 as [|x l Hl IH Hx]; simpl.
  - repeat constructor.
  - destruct (msg_timestamp m <=? msg_timestamp x) eqn:E.
    + apply Z.leb_le in E. constructor; [now constructor|].
      constructor; [exact E|].
      eapply Forall_impl; [exact Hx|]. unfold timestamp_asc. simpl. lia.
    + apply Z.leb_gt in E. constructor; [exact IH|].
      rewrite insert_asc_perm. constructor; [|exact Hx].
      unfold timestamp_asc. lia.
Qed.

Lemma sort_asc_sorted (l : list Message) :
  StronglySorted timestamp_asc (Store.sort_asc l).
Proof.
  induction l as [|m l IH]; simpl; [constructor|].
  now apply insert_asc_sorted.
Qed.

Lemma take_sorted (n : nat) (l : list Message) :
  StronglySorted timestamp_asc l -> StronglySorted timestamp_asc (take n l).
Proof.
  intros H. revert n. induction H as [|x l Hl IH Hx]; intros [|n]; simpl;
    try constructor; auto.
  now apply Forall_take.
Qed.

Lemma history_spec (room : jsval) (st : list Message) :
  let room_log := Store.sort_asc (Store.find room st) in
  let msgs := Store.history room st in
  (length msgs <= 50)%nat /\
  Forall (fun m => msg_room m = room) msgs /\
  StronglySorted timestamp_asc msgs /\
  msgs = take 50 room_log /\
  room_log ≡ₚ Store.find room st /\
  StronglySorted timestamp_asc room_log.
Proof.
  simpl. unfold Store.history, Store.limit. repeat split.
  - rewrite length_take. lia.
  - apply Forall_take. rewrite sort_asc_perm. apply find_room.
  - apply take_sorted, sort_asc_sorted.
  - apply sort_asc_perm.
  - apply sort_asc_sorted.
Qed.

Lemma deliver_private (id : string) (l : list Socket) :
  Forall (eq id) (deliver (ToSocket id) l).
Proof.
  simpl. induction l as [|k l IH]; simpl; [constructor|].
  destruct (String.eqb (sock_id k) id) eqn:E; [|exact IH].
  apply String.eqb_eq in E. simpl. constructor; auto.
Qed.

(** ** The notification loop *)

Lemma lfilter_lfilter {A : Type} (f g : A -> bool) (l : list A) :
  List.filter g (List.filter f l) = List.filter (fun x => f x && g x) l.
Proof.
  induction l as [|x l IH]; simpl; [reflexivity|].
  destruct (f x); simpl; [destruct (g x)|]; now rewrite IH.
Qed.

Lemma lfilter_nil {A : Type} (f g : A -> bool) (l : list A) :
  List.filter f l = [] -> List.filter (fun x => f x && g x) l = [].
Proof. intros H. now rewrite <- lfilter_lfilter, H. Qed.

Section Loop.

Context `{Expo : ExpoSdk}.

Lemma build_notifications_spec (u r m : jsval) (l : list obj) :
  build_notifications u r m l =
  (map (notification u r m)
       (List.filter (fun user => isExpoPushToken (get "pushToken" user)) l),
   map (fun user => ErrInvalidPushToken (get "pushToken" user))
       (List.filter
          (fun user => negb (isExpoPushToken (get "pushToken" user))) l)).
Proof.
  induction l as [|user l IH]; simpl; [reflexivity|].
  rewrite IH. now destruct (isExpoPushToken (get "pushToken" user)).
Qed.

End Loop.

(** ** The claims *)

Section Claims.

Context `{Expo : ExpoSdk}.

Lemma step_settle (p : nat) (ok : bool) (s : State) (k : Pending) :
  pending_lookup p (st_pending s) = Some k ->
  step (Settle p ok) s =
  resume k ok (with_pending (pending_remove p (st_pending s)) s).
Proof. intros H. simpl. now rewrite H. Qed.

Lemma joinRoom_registers (s : State) (id : string) (u r : jsval) :
  connected id s = true ->
  registered_room id (step (Receive id (JoinRoom u r)) s) = Some r /\
  in_transport_room id r (step (Receive id (JoinRoom u r)) s) = true.
Proof.
  unfold connected. simpl.
  destruct (find_socket id (st_sockets s)) as [k|] eqn:Hk; [|discriminate].
  intros _. split.
  - unfold registered_room, on_joinRoom. simpl.
    rewrite lookup_assign, deref_alloc_new. reflexivity.
  - unfold in_transport_room, on_joinRoom. simpl.
    rewrite find_socket_update, Hk by reflexivity.
    apply find_socket_id in Hk as [-> _]. rewrite String.eqb_refl.
    exact (in_room_joined r k).
Qed.

Lemma sendMessage_resume_ok (u r m : jsval) (doc : Message) (s : State) :
  st_outbox (sendMessage_resume u r m doc true s) =
    st_outbox s ++
    [mkEmit (ToRoom r) (deliver (ToRoom r) (st_sockets s))
            (MessageEv (mkMessageEvent u m (msg_timestamp doc) false))] /\
  st_store (sendMessage_resume u r m doc true s) = st_store s ++ [doc].
Proof.
  unfold sendMessage_resume.
  destruct (List.filter _ _); [split; reflexivity|].
  destruct (build_notifications _ _ _ _) as [ns errs].
  destruct (chunkPushNotifications ns); split; reflexivity.
Qed.

(** C9.  Disconnecting a connection that has no session in the registry
    changes nothing but the transport's own socket table: the registry and
    its sessions are as before, nothing is emitted (no "has left" message,
    no [onlineUsers]), nothing is logged and nothing is raised or left
    pending. *)
Theorem disconnect_without_session (s : State) (id : string) :
  Registry.lookup id (st_onlineUsers s) = None ->
  let s' := step (Disconnect id) s in
  st_onlineUsers s' = st_onlineUsers s /\
  st_heap s' = st_heap s /\
  st_outbox s' = st_outbox s /\
  st_console s' = st_console s /\
  st_store s' = st_store s /\
  st_pushed s' = st_pushed s /\
  st_pending s' = st_pending s.
Proof.
  intros Hnone. simpl. destruct (find_socket id (st_sockets s)); [|done].
  unfold on_disconnect. simpl. rewrite Hnone. done.
Qed.


(** C2 (as amended).  The timestamp of a [sendMessage] broadcast is the
    clock reading taken when the event was received, before the save was
    started; it is the timestamp stored with the message, and it does not
    depend on anything the client sent or on when the save completes. *)
Theorem message_timestamp_is_receive_time (s : State) (id : string)
    (username room message : jsval) (tr : list Input) :
  connected id s = true ->
  forallb (fun i => negb (is_settle_of (st_next s) i)) tr = true ->
  let s1 := step (Receive id (SendMessage username room message)) s in
  let s2 := run tr s1 in
  let s3 := step (Settle (st_next s) true) s2 in
  emitted_since (length (st_outbox s2)) s3 =
    [mkEmit (ToRoom room) (deliver (ToRoom room) (st_sockets s2))
            (MessageEv (mkMessageEvent username message (st_clock s) false))] /\
  st_store s3 = st_store s2 ++ [mkMessage username room message (st_clock s)].
Proof.
  intros Hc Htr s1 s2 s3.
  assert (Hs1 : s1 = suspend
            (AwaitSave id username room message
               (mkMessage username room message (st_clock s))) s).
  { subst s1. unfold connected in Hc. simpl.
    now destruct (find_socket id (st_sockets s)). }
  assert (Hk : waiting (st_next s)
            (AwaitSave id username room message
               (mkMessage username room message (st_clock s))) s2).
  { subst s2. rewrite Hs1. apply waiting_run; [exact Htr|apply waiting_new]. }
  destruct Hk as [Hk _]. subst s3.
  rewrite (step_settle _ _ _ _ Hk). unfold resume, emitted_since.
  destruct (sendMessage_resume_ok username room message
              (mkMessage username room message (st_clock s))
              (with_pending (pending_remove (st_next s) (st_pending s2)) s2))
    as [-> ->].
  simpl. now rewrite drop_app_length.
Qed.

(** C4 (as amended).  When the history fetch of a join succeeds, the
    [chatHistory] event goes to the joining socket only and carries at
    most 50 messages, all of the joined room, oldest first; they are the
    first 50 of the room's messages in ascending timestamp order, that is
    the 50 oldest ones. *)
Theorem chatHistory_oldest_fifty (s : State) (p : nat) (id : string)
    (username room : jsval) (roomUsers : list loc) :
  pending_lookup p (st_pending s) =
    Some (AwaitFind id username room roomUsers) ->
  let s' := step (Settle p true) s in
  let room_log := Store.sort_asc (Store.find room (st_store s)) in
  exists msgs rest,
    emitted_since (length (st_outbox s)) s' =
      mkEmit (ToSocket id) (deliver (ToSocket id) (st_sockets s))
             (ChatHistory msgs) :: rest /\
    Forall (fun e => match em_payload e with
                     | ChatHistory _ => False
                     | _ => True
                     end) rest /\
    Forall (eq id) (deliver (ToSocket id) (st_sockets s)) /\
    (length msgs <= 50)%nat /\
    Forall (fun m => msg_room m = room) msgs /\
    StronglySorted timestamp_asc msgs /\
    msgs = take 50 room_log /\
    room_log ≡ₚ Store.find room (st_store s) /\
    StronglySorted timestamp_asc room_log.
Proof.
  intros Hp. simpl. rewrite Hp. simpl.
  eexists (Store.history room (st_store s)), _. split.
  - unfold emitted_since, joinRoom_resume. simpl.
    rewrite <- !app_assoc. rewrite drop_app_length. simpl. reflexivity.
  - split; [repeat constructor|].
    split; [apply deliver_private|]. apply history_spec.
Qed.



(** C7 (as amended).  Every entry of every [onlineUsers] event is a
    session object of the registry as it is, with the four properties
    [username], [room], [socketId] and [pushToken]: the push token of each
    member is part of what the room receives. *)
Theorem onlineUsers_entries_are_sessions (tr : list Input) :
  Forall
    (fun e =>
       match em_payload e with
       | OnlineUsers roomUsers =>
           Forall
             (fun user =>
                keys user = ["username"; "room"; "socketId"; "pushToken"])
             roomUsers
       | _ => True
       end)
    (st_outbox (run tr init)).
Proof. exact (wf_outbox _ (wf_reachable tr)). Qed.

Lemma push_plan (tr : list Input) (p : nat) (id : string)
    (username room message : jsval) (newMessage : Message) :
  let s := run tr init in
  pending_lookup p (st_pending s) =
    Some (AwaitSave id username room message newMessage) ->
  let s' := step (Settle p true) s in
  let registered :=
    sessions (st_heap s) (Registry.values (st_onlineUsers s)) in
  let accepted user :=
    strict_eq (get "room" user) room
    && negb (strict_eq (get "username" user) username)
    && truthy (get "pushToken" user)
    && isExpoPushToken (get "pushToken" user) in
  let rejected user :=
    strict_eq (get "room" user) room
    && negb (strict_eq (get "username" user) username)
    && truthy (get "pushToken" user)
    && negb (isExpoPushToken (get "pushToken" user)) in
  concat (push_batches (st_next s) s') =
    map (notification username room message)
        (List.filter accepted registered) /\
  st_console s' =
    st_console s ++
    LogSent username room message ::
    map (fun user => ErrInvalidPushToken (get "pushToken" user))
        (List.filter rejected registered) /\
  st_pushed s' = st_pushed s ++ take 1 (push_batches (st_next s) s') /\
  (push_batches (st_next s) s' <> [] -> st_next s' = S (st_next s)).
Proof.
  intros s Hp. simpl. rewrite Hp. simpl. unfold sendMessage_resume.
  pose proof (wf_fresh _ (wf_reachable tr)) as Hfresh. fold s in Hfresh.
  assert (Hnone : pending_lookup (st_next s)
                    (pending_remove p (st_pending s)) = None).
  { apply (pending_lookup_fresh _ (st_next s)); [|lia].
    unfold pending_remove. now apply Forall_lfilter. }
  simpl.
  set (registered := sessions (st_heap s) (Registry.values (st_onlineUsers s))).
  destruct (List.filter (push_candidate username room) registered)
    as [|x l] eqn:E.
  - unfold push_batches. simpl. rewrite Hnone.
    unfold push_candidate in E.
    rewrite !(lfilter_nil _ _ _ E). simpl. rewrite app_nil_r.
    repeat split; try reflexivity. intros H. now contradiction H.
  - rewrite build_notifications_spec. rewrite <- E.
    rewrite !lfilter_lfilter.
    set (ns := map _ (List.filter _ registered)).
    pose proof (chunks_partition ns) as Hc.
    destruct (chunkPushNotifications ns) as [|c rest]; simpl.
    + unfold push_batches. simpl. rewrite Hnone. simpl in Hc. simpl.
      rewrite app_nil_r.
      split; [exact Hc|]. split; [now rewrite <- app_assoc|].
      split; [reflexivity|]. intros H. now contradiction H.
    + unfold push_batches. simpl. rewrite Nat.eqb_refl. simpl.
      split; [exact Hc|]. split; [now rewrite <- app_assoc|].
      split; reflexivity.
Qed.

Lemma settle_push_chain (s : State) (p : nat)
    (chunk : list Notification) (rest : list (list Notification))
    (ok : bool) (oks : list bool) :
  pending_lookup p (st_pending s) = Some (AwaitPush chunk rest) ->
  length oks = length rest ->
  let s' := run (Settle p ok :: settle_from (st_next s) oks) s in
  st_pushed s' = st_pushed s ++ rest /\
  st_console s' = st_console s ++ map push_log (ok :: oks).
Proof.
  revert s p chunk ok oks.
  induction rest as [|c rest IH]; intros s p chunk ok oks Hp Hlen.
  - destruct oks; [|discriminate]. simpl. rewrite Hp. simpl.
    rewrite app_nil_r. split; reflexivity.
  - destruct oks as [|ok' oks]; [discriminate|]. injection Hlen as Hlen.
    intros s'. subst s'.
    change (run (Settle p ok :: settle_from (st_next s) (ok' :: oks)) s)
      with (run (Settle (st_next s) ok' :: settle_from (S (st_next s)) oks)
                (step (Settle p ok) s)).
    rewrite (step_settle _ _ _ _ Hp).
    set (s1 := resume (AwaitPush chunk (c :: rest)) ok
                 (with_pending (pending_remove p (st_pending s)) s)).
    assert (Hp1 : pending_lookup (st_next s) (st_pending s1) =
                  Some (AwaitPush c rest))
      by (simpl; now rewrite Nat.eqb_refl).
    destruct (IH s1 (st_next s) c ok' oks Hp1 Hlen) as (H1 & H2).
    change (st_next s1) with (S (st_next s)) in H1, H2.
    rewrite H1, H2. simpl. rewrite <- !app_assoc. split; reflexivity.
Qed.

(** C8.  When a [sendMessage] call reaches the notification block, the
    notifications handed to the push transport are exactly those for the
    registered sessions of the room whose user name differs from the
    sender's and whose push token is present and accepted by
    [Expo.isExpoPushToken], in registry order.  Each candidate whose token
    is rejected is logged by one [console.error] and skipped; the
    candidates after it are still served.  The notifications are cut into
    the chunks of the SDK; the first chunk is handed to the transport at
    once and the others as the calls settle, whatever their outcomes, so
    that the transport gets all of them, each once and in order. *)
Theorem push_recipients (tr : list Input) (p : nat) (id : string)
    (username room message : jsval) (newMessage : Message) :
  let s := run tr init in
  pending_lookup p (st_pending s) =
    Some (AwaitSave id username room message newMessage) ->
  let s' := step (Settle p true) s in
  let registered :=
    sessions (st_heap s) (Registry.values (st_onlineUsers s)) in
  let accepted user :=
    strict_eq (get "room" user) room
    && negb (strict_eq (get "username" user) username)
    && truthy (get "pushToken" user)
    && isExpoPushToken (get "pushToken" user) in
  let rejected user :=
    strict_eq (get "room" user) room
    && negb (strict_eq (get "username" user) username)
    && truthy (get "pushToken" user)
    && negb (isExpoPushToken (get "pushToken" user)) in
  concat (push_batches (st_next s) s') =
    map (notification username room message)
        (List.filter accepted registered) /\
  st_console s' =
    st_console s ++
    LogSent username room message ::
    map (fun user => ErrInvalidPushToken (get "pushToken" user))
        (List.filter rejected registered) /\
  st_pushed s' = st_pushed s ++ take 1 (push_batches (st_next s) s') /\
  forall oks : list bool,
    length oks = length (push_batches (st_next s) s') ->
    let s'' := run (settle_from (st_next s) oks) s' in
    st_pushed s'' = st_pushed s ++ push_batches (st_next s) s' /\
    concat (drop (length (st_pushed s)) (st_pushed s'')) =
      map (notification username room message)
          (List.filter accepted registered) /\
    st_console s'' = st_console s' ++ map push_log oks.
Proof.
  intros s Hp s' registered accepted rejected.
  destruct (push_plan tr p id username room message newMessage Hp)
    as (H1 & H2 & H3 & H4).
  fold s s' registered in H1, H2, H3, H4.
  split; [exact H1|]. split; [exact H2|]. split; [exact H3|].
  intros oks Hlen s''.
  assert (G : st_pushed s'' = st_pushed s ++ push_batches (st_next s) s' /\
              st_console s'' = st_console s' ++ map push_log oks).
  { subst s''. unfold push_batches in *.
    destruct (pending_lookup (st_next s) (st_pending s')) as [k|] eqn:Ek.
    - destruct k as [? ? ? ?|? ? ? ? ?|c rest].
      + destruct oks; [|discriminate]. simpl. simpl in H3.
        rewrite H3, !app_nil_r. split; reflexivity.
      + destruct oks; [|discriminate]. simpl. simpl in H3.
        rewrite H3, !app_nil_r. split; reflexivity.
      + destruct oks as [|ok oks]; [discriminate|]. injection Hlen as Hlen.
        assert (Hn : st_next s' = S (st_next s)) by (apply H4; discriminate).
        change (settle_from (st_next s) (ok :: oks))
          with (Settle (st_next s) ok :: settle_from (S (st_next s)) oks).
        rewrite <- Hn.
        destruct (settle_push_chain s' (st_next s) c rest ok oks Ek Hlen)
          as [G1 G2].
        rewrite G1, G2. simpl in H3. rewrite H3, <- app_assoc.
        split; reflexivity.
    - destruct oks; [|discriminate]. simpl. simpl in H3.
      rewrite H3, !app_nil_r. split; reflexivity. }
  destruct G as [G1 G2]. split; [exact G1|]. split; [|exact G2].
  rewrite G1, drop_app_length. exact H1.
Qed.

(** C10.  A connection that joins room A and later room B without
    disconnecting stays in the transport room A: the registry records room
    B for it, yet every event addressed to room A from then on, be it a
    message, a system message or an [onlineUsers] list, is still delivered
    to it, as are those addressed to room B. *)
Theorem transport_rooms_only_grow (s : State) (id : string)
    (usernameA roomA usernameB roomB : jsval) (tr1 tr2 : list Input) :
  connected id s = true ->
  forallb (fun i => negb (is_disconnect_of id i)) tr1 = true ->
  forallb (fun i => negb (is_disconnect_of id i)) tr2 = true ->
  let s1 := run tr1 (step (Receive id (JoinRoom usernameA roomA)) s) in
  let s2 := step (Receive id (JoinRoom usernameB roomB)) s1 in
  let s3 := run tr2 s2 in
  registered_room id s2 = Some roomB /\
  in_transport_room id roomA s3 = true /\
  in_transport_room id roomB s3 = true /\
  Forall (fun e => em_target e = ToRoom roomA -> id ∈ em_recipients e)
         (emitted_since (length (st_outbox s2)) s3).
Proof.
  intros Hc H1 H2 s1 s2 s3.
  pose proof (fun t u r => joinRoom_registers t id u r) as Hjoin.
  assert (HA1 : reaches id roomA
                  (st_outbox (step (Receive id (JoinRoom usernameA roomA)) s))
                  s1).
  { apply reaches_run; [exact H1|].
    split; [now apply Hjoin|]. exists []. split; [|constructor].
    now rewrite app_nil_r. }
  assert (Hc1 : connected id s1 = true).
  { destruct HA1 as [Hin _]. unfold in_transport_room in Hin.
    unfold connected. now destruct (find_socket id (st_sockets s1)). }
  assert (HA2 : reaches id roomA (st_outbox s2) s2).
  { eapply reaches_rebase. apply reaches_step; [reflexivity|exact HA1]. }
  assert (HB2 : reaches id roomB (st_outbox s2) s2).
  { split; [now apply Hjoin|]. exists []. split; [|constructor].
    now rewrite app_nil_r. }
  destruct (reaches_run _ _ _ tr2 _ H2 HA2) as [HinA (new & Hout & Hnew)].
  destruct (reaches_run _ _ _ tr2 _ H2 HB2) as [HinB _].
  fold s3 in HinA, HinB, Hout.
  split; [now apply Hjoin|]. split; [exact HinA|]. split; [exact HinB|].
  unfold emitted_since. rewrite Hout, drop_app_length. exact Hnew.
Qed.

End Claims.

(** ** Objects and the registry, continued *)

Lemma strict_eq_refl (v : jsval) : strict_eq v v = true.
Proof. now apply strict_eq_eq. Qed.

Lemma get_set_eq (k : string) (v : jsval) (o : obj) : get k (set k v o) = v.
Proof.
  induction o as [|[k' v'] o IH]; simpl.
  - now rewrite String.eqb_refl.
  - destruct (String.eqb k k') eqn:E; simpl; [now rewrite String.eqb_refl|].
    now rewrite E.
Qed.

Lemma get_set_ne (k k' : string) (v : jsval) (o : obj) :
  k <> k' -> get k (set k' v o) = get k o.
Proof.
  intros Hne. apply String.eqb_neq in Hne.
  induction o as [|[k1 v1] o IH]; simpl.
  - now rewrite Hne.
  - destruct (String.eqb k' k1) eqn:E; simpl.
    + apply String.eqb_eq in E. subst k1. now rewrite Hne.
    + now rewrite IH.
Qed.

Lemma set_set (k : string) (v w : jsval) (o : obj) :
  set k w (set k v o) = set k w o.
Proof.
  induction o as [|[k' v'] o IH]; simpl.
  - now rewrite String.eqb_refl.
  - destruct (String.eqb k k') eqn:E; simpl.
    + now rewrite String.eqb_refl.
    + now rewrite E, IH.
Qed.

Lemma lookup_In (id : string) (a : loc) (r : Registry.t) :
  Registry.lookup id r = Some a -> In (id, a) r.
Proof.
  induction r as [|[k b] r IH]; simpl; [discriminate|].
  destruct (String.eqb id k) eqn:E.
  - apply String.eqb_eq in E. intros [= ->]. left. now subst.
  - intros H. right. auto.
Qed.

Lemma lookup_None (id : string) (r : Registry.t) :
  Registry.lookup id r = None <-> ~ In id (map fst r).
Proof.
  induction r as [|[k b] r IH]; simpl; [tauto|].
  destruct (String.eqb id k) eqn:E.
  - apply String.eqb_eq in E. subst. split; [discriminate|]. tauto.
  - apply String.eqb_neq in E. rewrite IH. split; [|tauto].
    intros H [Hk|Hin]; [now subst|tauto].
Qed.

Lemma In_lookup (id : string) (a : loc) (r : Registry.t) :
  NoDup (map fst r) -> In (id, a) r -> Registry.lookup id r = Some a.
Proof.
  induction r as [|[k b] r IH]; simpl; [tauto|].
  intros Hnd Hin. apply NoDup_cons in Hnd as [Hk Hnd].
  destruct (String.eqb id k) eqn:E.
  - apply String.eqb_eq in E. subst k.
    destruct Hin as [[= ->]|Hin]; [reflexivity|].
    exfalso. apply Hk. apply list_elem_of_In.
    exact (in_map fst _ _ Hin).
  - apply String.eqb_neq in E.
    destruct Hin as [[= <- <-]|Hin]; [contradiction|auto].
Qed.

Lemma lookup_assign_ne (id j : string) (a : loc) (r : Registry.t) :
  j <> id -> Registry.lookup j (Registry.assign id a r) = Registry.lookup j r.
Proof.
  intros Hne. induction r as [|[k b] r IH]; simpl.
  - apply String.eqb_neq in Hne. now rewrite Hne.
  - destruct (String.eqb id k) eqn:E; simpl.
    + apply String.eqb_eq in E. subst k.
      apply String.eqb_neq in Hne. now rewrite Hne.
    + now rewrite IH.
Qed.

Lemma lookup_remove (id : string) (r : Registry.t) :
  Registry.lookup id (Registry.remove id r) = None.
Proof.
  induction r as [|[k b] r IH]; simpl; [reflexivity|].
  destruct (String.eqb id k) eqn:E; simpl; [exact IH|]. now rewrite E.
Qed.

Lemma remove_In (id : string) (ka : string * loc) (r : Registry.t) :
  In ka (Registry.remove id r) <-> In ka r /\ fst ka <> id.
Proof.
  induction r as [|[k b] r IH]; simpl; [tauto|].
  destruct (String.eqb id k) eqn:E.
  - apply String.eqb_eq in E. subst k. rewrite IH. split; [tauto|].
    intros [[<-|Hin] Hne]; [now simpl in Hne|tauto].
  - apply String.eqb_neq in E. simpl. rewrite IH. split; [|tauto].
    intros [<-|[Hin Hne]]; [|tauto]. simpl. split; [tauto|congruence].
Qed.

Lemma remove_keys_NoDup (id : string) (r : Registry.t) :
  NoDup (map fst r) -> NoDup (map fst (Registry.remove id r)).
Proof.
  induction r as [|[k b] r IH]; simpl; intros H; [constructor|].
  apply NoDup_cons in H as [Hk Hnd].
  destruct (String.eqb id k); simpl; [auto|].
  apply NoDup_cons. split; [|auto].
  intros Hin. apply Hk. apply list_elem_of_In in Hin. apply list_elem_of_In.
  apply in_map_iff in Hin as (ka & <- & Hin). apply remove_In in Hin as [Hin _].
  now apply in_map.
Qed.

(** A first assignment appends the key, a later one keeps its place. *)
Lemma assign_keys (id : string) (a : loc) (r : Registry.t) :
  map fst (Registry.assign id a r) =
  match Registry.lookup id r with
  | Some _ => map fst r
  | None => map fst r ++ [id]
  end.
Proof.
  induction r as [|[k b] r IH]; simpl; [reflexivity|].
  destruct (String.eqb id k) eqn:E; simpl; [reflexivity|].
  rewrite IH. now destruct (Registry.lookup id r).
Qed.

Lemma assign_keys_NoDup (id : string) (a : loc) (r : Registry.t) :
  NoDup (map fst r) -> NoDup (map fst (Registry.assign id a r)).
Proof.
  intros H. rewrite assign_keys.
  destruct (Registry.lookup id r) eqn:E; [exact H|].
  apply NoDup_app. split; [exact H|]. split; [|apply NoDup_singleton].
  intros x Hx Hx'. apply list_elem_of_singleton in Hx'. subst x.
  apply lookup_None in E. apply E. now apply list_elem_of_In.
Qed.

Lemma assign_Forall (Q : string * loc -> Prop) (id : string) (a : loc)
    (r : Registry.t) :
  Q (id, a) -> Forall Q r -> Forall Q (Registry.assign id a r).
Proof.
  intros Hq. induction 1 as [|[k b] r Hk Hr IH]; simpl.
  - repeat constructor. exact Hq.
  - destruct (String.eqb id k) eqn:E; constructor; auto.
    apply String.eqb_eq in E. now subst k.
Qed.

Lemma remove_Forall (Q : string * loc -> Prop) (id : string) (r : Registry.t) :
  Forall Q r -> Forall Q (Registry.remove id r).
Proof.
  induction 1 as [|[k b] r Hk Hr IH]; simpl; [constructor|].
  destruct (String.eqb id k); [|constructor]; auto.
Qed.

Lemma deref_alloc_old (h : heap) (o : obj) (a : loc) :
  (a < length h)%nat -> deref (h ++ [o]) a = deref h a.
Proof. intros Ha. unfold deref. now rewrite lookup_app_l. Qed.

Lemma deref_insert (h : heap) (a b : loc) (o : obj) :
  deref (<[a := o]> h) b =
  if decide (a = b /\ (a < length h)%nat) then o else deref h b.
Proof.
  unfold deref. destruct (decide (a = b /\ (a < length h)%nat)) as [[-> Hlt]|Hn].
  - now rewrite list_lookup_insert_eq.
  - destruct (decide (a = b)) as [->|Hne].
    + rewrite list_insert_ge by lia. reflexivity.
    + now rewrite list_lookup_insert_ne.
Qed.

Lemma lfilter_ext {A : Type} (f g : A -> bool) (l : list A) :
  (forall x, f x = g x) -> List.filter f l = List.filter g l.
Proof.
  intros H. induction l as [|x l IH]; simpl; [reflexivity|].
  now rewrite H, IH.
Qed.

Lemma map_lfilter_NoDup {A B : Type} (g : A -> B) (f : A -> bool) (l : list A) :
  NoDup (map g l) -> NoDup (map g (List.filter f l)).
Proof.
  induction l as [|x l IH]; simpl; intros H; [constructor|].
  apply NoDup_cons in H as [Hx Hnd].
  destruct (f x); simpl; [|auto].
  apply NoDup_cons. split; [|auto].
  intros Hin. apply Hx. apply list_elem_of_In in Hin. apply list_elem_of_In.
  apply in_map_iff in Hin as (y & <- & Hy). apply filter_In in Hy as [Hy _].
  now apply in_map.
Qed.

(** ** The registry agrees with the transport *)

Lemma consistent_frame (s s' : State) :
  st_heap s' = st_heap s -> st_onlineUsers s' = st_onlineUsers s ->
  st_sockets s' = st_sockets s -> consistent s -> consistent s'.
Proof.
  intros Hh Hr Hk [H1 H2 H3]. split; rewrite ?Hh, ?Hr; try assumption.
  unfold connected in *. now rewrite Hk.
Qed.

Lemma connected_update (j id : string) (f : Socket -> Socket) (s : State) :
  (forall k, sock_id (f k) = sock_id k) ->
  connected j (with_sockets (update_socket id f (st_sockets s)) s) =
  connected j s.
Proof.
  intros Hf. unfold connected. simpl. rewrite find_socket_update by exact Hf.
  now destruct (find_socket j (st_sockets s)).
Qed.

Lemma consistent_init : consistent init.
Proof. split; simpl; constructor. Qed.

Section Consistency.

Context `{Expo : ExpoSdk}.

Lemma resume_frame (k : Pending) (ok : bool) (s : State) :
  st_heap (resume k ok s) = st_heap s /\
  st_onlineUsers (resume k ok s) = st_onlineUsers s /\
  st_sockets (resume k ok s) = st_sockets s.
Proof.
  destruct k as [id u r l|id u r m doc|c rest]; simpl.
  - unfold joinRoom_resume. destruct ok; repeat split; reflexivity.
  - unfold sendMessage_resume. destruct ok; [|repeat split; reflexivity].
    destruct (List.filter _ _); [repeat split; reflexivity|].
    destruct (build_notifications _ _ _ _) as [ns errs].
    destruct (chunkPushNotifications ns); repeat split; reflexivity.
  - destruct rest; repeat split; reflexivity.
Qed.

Lemma consistent_connection (id : string) (s : State) :
  consistent s -> consistent (on_connection id s).
Proof.
  intros [H1 H2 H3]. unfold on_connection.
  destruct (find_socket id (st_sockets s)) eqn:E; [split; assumption|].
  split; simpl; try assumption.
  eapply Forall_impl; [exact H3|]. simpl. intros ka. unfold connected. simpl.
  destruct (find_socket ka.1 (st_sockets s)) eqn:Ek; [|discriminate].
  now rewrite (find_socket_app _ _ _ _ Ek).
Qed.

Lemma consistent_registerPushToken (id : string) (t : jsval) (s : State) :
  consistent s -> consistent (on_registerPushToken id t s).
Proof.
  intros [H1 H2 H3]. unfold on_registerPushToken.
  set (s1 := with_sockets _ s).
  assert (C1 : consistent s1).
  { split; try assumption.
    eapply Forall_impl; [exact H3|]. simpl. intros ka Hka. subst s1.
    now rewrite connected_update. }
  apply (consistent_frame (match Registry.lookup id (st_onlineUsers s1) with
                           | Some a =>
                               with_heap
                                 (<[a:=set "pushToken" t (deref (st_heap s1) a)]>
                                    (st_heap s1)) s1
                           | None => s1
                           end)); try reflexivity.
  destruct (Registry.lookup id (st_onlineUsers s1)) as [a|]; [|exact C1].
  destruct C1 as [G1 G2 G3]. split; try assumption. simpl.
  eapply Forall_impl; [exact G2|]. simpl. intros ka Hka.
  rewrite deref_insert. destruct (decide _) as [[-> _]|_]; [|exact Hka].
  now rewrite get_set_ne.
Qed.

Lemma consistent_joinRoom (id : string) (u r : jsval) (s : State) :
  wf s -> connected id s = true -> consistent s ->
  consistent (on_joinRoom id u r s).
Proof.
  intros Hwf Hc [H1 H2 H3]. unfold on_joinRoom. simpl.
  assert (Hf : forall k : Socket,
             sock_id (mkSocket (sock_id (socket_join r k))
                        (sock_pushToken (socket_join r k)) u r
                        (sock_rooms (socket_join r k))) = sock_id k)
    by reflexivity.
  split; simpl.
  - now apply assign_keys_NoDup.
  - apply assign_Forall; simpl; [now rewrite deref_alloc_new|].
    pose proof (wf_registry s Hwf) as Hv. unfold Registry.values in Hv.
    rewrite Forall_forall in Hv. rewrite Forall_forall in H2.
    apply Forall_forall. intros ka Hka.
    rewrite deref_alloc_old; [now apply H2|].
    apply Hv. apply list_elem_of_In. apply in_map. now apply list_elem_of_In.
  - apply assign_Forall; simpl.
    + rewrite <- Hc. exact (connected_update id id _ s Hf).
    + eapply Forall_impl; [exact H3|]. simpl. intros ka Hka.
      rewrite <- Hka. exact (connected_update _ id _ s Hf).
Qed.

Lemma consistent_disconnect (id : string) (s : State) :
  consistent s -> consistent (on_disconnect id s).
Proof.
  intros [H1 H2 H3]. unfold on_disconnect. simpl.
  assert (Hother : forall j s', j <> id ->
            st_sockets s' = drop_socket id (st_sockets s) ->
            connected j s' = connected j s).
  { intros j s' Hj Hs'. unfold connected. rewrite Hs', find_socket_drop; [done|].
    apply String.eqb_neq. congruence. }
  destruct (Registry.lookup id (st_onlineUsers s)) as [a|] eqn:E.
  - apply (consistent_frame
             (with_onlineUsers (Registry.remove id (st_onlineUsers s))
                (with_sockets (drop_socket id (st_sockets s)) s)));
      try reflexivity.
    split.
    + simpl. now apply remove_keys_NoDup.
    + simpl. now apply remove_Forall.
    + apply Forall_forall. intros ka Hka.
      apply list_elem_of_In in Hka. simpl in Hka.
      apply remove_In in Hka as [Hka Hne].
      rewrite (Hother ka.1
                 (with_onlineUsers (Registry.remove id (st_onlineUsers s))
                    (with_sockets (drop_socket id (st_sockets s)) s))
                 Hne eq_refl).
      rewrite Forall_forall in H3. apply H3. now apply list_elem_of_In.
  - split; try assumption.
    apply Forall_forall. intros ka Hka. simpl in Hka.
    rewrite (Hother ka.1 (with_sockets (drop_socket id (st_sockets s)) s));
      [| |reflexivity].
    + rewrite Forall_forall in H3. now apply H3.
    + intros Heq. apply lookup_None in E. apply E. rewrite <- Heq.
      apply list_elem_of_In in Hka. now apply in_map.
Qed.

Lemma consistent_step (i : Input) (s : State) :
  wf s -> consistent s -> consistent (step i s).
Proof.
  intros Hwf H. destruct i as [id|id e|id|p ok|dt]; simpl.
  - now apply consistent_connection.
  - destruct (find_socket id (st_sockets s)) eqn:Ek; [|assumption].
    destruct e as [t|u r|u r m|u r t]; simpl.
    + now apply consistent_registerPushToken.
    + apply consistent_joinRoom; try assumption.
      unfold connected. now rewrite Ek.
    + revert H. now apply consistent_frame.
    + revert H. now apply consistent_frame.
  - destruct (find_socket id (st_sockets s)); [|assumption].
    now apply consistent_disconnect.
  - destruct (pending_lookup p (st_pending s)); [|assumption].
    destruct (resume_frame p0 ok
                (with_pending (pending_remove p (st_pending s)) s))
      as (Hh & Hr & Hk).
    revert H. now apply consistent_frame.
  - revert H. now apply consistent_frame.
Qed.

Lemma consistent_reachable (tr : list Input) : consistent (run tr init).
Proof.
  assert (G : forall s, wf s -> consistent s ->
                        wf (run tr s) /\ consistent (run tr s)).
  { induction tr as [|i tr IH]; simpl; intros s Hwf Hc; [auto|].
    apply IH; [now apply wf_step|now apply consistent_step]. }
  apply G; [apply wf_init|apply consistent_init].
Qed.

End Consistency.

(** ** Further properties of the handlers *)

Lemma connected_register (j id : string) (t : jsval) (s : State) :
  connected j (on_registerPushToken id t s) = connected j s.
Proof.
  rewrite <- (connected_update j id
                (fun k => mkSocket (sock_id k) t (sock_username k)
                            (sock_room k) (sock_rooms k)) s)
    by reflexivity.
  unfold on_registerPushToken, connected. simpl.
  now destruct (Registry.lookup id (st_onlineUsers s)).
Qed.

Lemma register_outbox (id : string) (t : jsval) (s : State) :
  st_outbox (on_registerPushToken id t s) = st_outbox s.
Proof.
  unfold on_registerPushToken. simpl.
  now destruct (Registry.lookup id (st_onlineUsers s)).
Qed.

Lemma register_sockets (id : string) (t : jsval) (s : State) :
  st_sockets (on_registerPushToken id t s) =
  update_socket id
    (fun k => mkSocket (sock_id k) t (sock_username k) (sock_room k)
                (sock_rooms k))
    (st_sockets s).
Proof.
  unfold on_registerPushToken. simpl.
  now destruct (Registry.lookup id (st_onlineUsers s)).
Qed.

Lemma register_registry (id : string) (t : jsval) (s : State) :
  st_onlineUsers (on_registerPushToken id t s) = st_onlineUsers s.
Proof.
  unfold on_registerPushToken. simpl.
  now destruct (Registry.lookup id (st_onlineUsers s)).
Qed.

Lemma register_heap (id : string) (t : jsval) (s : State) :
  st_heap (on_registerPushToken id t s) =
  match Registry.lookup id (st_onlineUsers s) with
  | Some a => <[a := set "pushToken" t (deref (st_heap s) a)]> (st_heap s)
  | None => st_heap s
  end.
Proof.
  unfold on_registerPushToken. simpl.
  now destruct (Registry.lookup id (st_onlineUsers s)).
Qed.

Lemma register_keeps (id : string) (t : jsval) (s : State) (k : string)
    (a : loc) :
  k <> "pushToken" ->
  get k (deref (st_heap (on_registerPushToken id t s)) a) =
  get k (deref (st_heap s) a).
Proof.
  intros Hk. rewrite register_heap.
  destruct (Registry.lookup id (st_onlineUsers s)) as [b|]; [|reflexivity].
  rewrite deref_insert. destruct (decide _) as [[-> _]|_]; [|reflexivity].
  now rewrite get_set_ne.
Qed.

Lemma update_socket_twice (id : string) (f g : Socket -> Socket)
    (l : list Socket) :
  (forall k, sock_id (f k) = sock_id k) ->
  (forall k, g (f k) = g k) ->
  update_socket id g (update_socket id f l) = update_socket id g l.
Proof.
  intros Hf Hg. unfold update_socket. rewrite map_map. apply map_ext.
  intros x. destruct (String.eqb (sock_id x) id) eqn:E.
  - now rewrite Hf, E, Hg.
  - now rewrite E.
Qed.

Lemma register_twice (id : string) (t1 t2 : jsval) (s : State) :
  st_sockets (on_registerPushToken id t2 (on_registerPushToken id t1 s)) =
    st_sockets (on_registerPushToken id t2 s) /\
  st_onlineUsers (on_registerPushToken id t2 (on_registerPushToken id t1 s)) =
    st_onlineUsers (on_registerPushToken id t2 s) /\
  st_heap (on_registerPushToken id t2 (on_registerPushToken id t1 s)) =
    st_heap (on_registerPushToken id t2 s).
Proof.
  unfold on_registerPushToken. simpl.
  destruct (Registry.lookup id (st_onlineUsers s)) as [a|] eqn:Ha; simpl;
    rewrite ?Ha; simpl;
    (split; [now apply update_socket_twice|]); split; try reflexivity.
  rewrite deref_insert. destruct (decide _) as [[_ Hlt]|Hn].
  - rewrite set_set. now rewrite list_insert_insert_eq.
  - assert (Hge : (length (st_heap s) <= a)%nat).
    { destruct (decide (a < length (st_heap s))%nat); [tauto|lia]. }
    rewrite (list_insert_ge (st_heap s)) by lia.
    reflexivity.
Qed.

Lemma find_socket_dropped (id : string) (l : list Socket) :
  find_socket id (drop_socket id l) = None.
Proof.
  unfold find_socket, drop_socket. induction l as [|x l IH]; simpl; [reflexivity|].
  destruct (String.eqb (sock_id x) id) eqn:E; simpl; [exact IH|].
  now rewrite E.
Qed.

Lemma deliver_dropped (id : string) (room : jsval) (l : list Socket) :
  ~ In id (deliver (ToRoom room) (drop_socket id l)).
Proof.
  simpl. intros Hin. apply in_map_iff in Hin as (k & Hk & Hin).
  apply filter_In in Hin as [Hin _]. unfold drop_socket in Hin.
  apply filter_In in Hin as [_ Hne]. apply negb_true_iff in Hne.
  apply String.eqb_neq in Hne. contradiction.
Qed.

Section Handlers.

Context `{Expo : ExpoSdk}.

Lemma step_receive (id : string) (e : ClientEvent) (s : State) :
  connected id s = true -> step (Receive id e) s = receive id e s.
Proof.
  unfold connected. simpl. now destruct (find_socket id (st_sockets s)).
Qed.

Lemma step_receive_ignored (id : string) (e : ClientEvent) (s : State) :
  connected id s = false -> step (Receive id e) s = s.
Proof.
  unfold connected. simpl. now destruct (find_socket id (st_sockets s)).
Qed.

(** X1.  A [typing] event is relayed to the sockets of the transport room
    other than the sender, and to nobody else; the sender never gets its
    own indicator back.  Nothing else happens: the registry, the store,
    the console and the suspended handlers are as before. *)
Theorem typing_excludes_sender (s : State) (id : string)
    (username room isTyping : jsval) :
  connected id s = true ->
  let s' := step (Receive id (Typing username room isTyping)) s in
  exists recipients,
    st_outbox s' =
      st_outbox s ++
      [mkEmit (ToRoomExcept room id) recipients (UserTyping username isTyping)] /\
    ~ In id recipients /\
    (forall j, In j recipients <->
               j <> id /\
               exists k, In k (st_sockets s) /\ sock_id k = j /\
                         in_room room k = true) /\
    st_onlineUsers s' = st_onlineUsers s /\
    st_heap s' = st_heap s /\
    st_sockets s' = st_sockets s /\
    st_store s' = st_store s /\
    st_console s' = st_console s /\
    st_pending s' = st_pending s.
Proof.
  unfold connected. intros Hc. simpl.
  destruct (find_socket id (st_sockets s)); [|discriminate]. simpl.
  assert (Hiff : forall j,
            In j (deliver (ToRoomExcept room id) (st_sockets s)) <->
            j <> id /\ exists k, In k (st_sockets s) /\ sock_id k = j /\
                                 in_room room k = true).
  { intros j. simpl. rewrite in_map_iff. split.
    - intros (k & <- & Hk). apply filter_In in Hk as [Hin Hk].
      apply andb_true_iff in Hk as [Hr Hne]. apply negb_true_iff in Hne.
      apply String.eqb_neq in Hne. eauto.
    - intros (Hne & k & Hin & <- & Hr). exists k. split; [reflexivity|].
      apply filter_In. split; [exact Hin|]. rewrite Hr. simpl.
      apply negb_true_iff. now apply String.eqb_neq. }
  eexists. split; [reflexivity|]. split.
  - intros Hin. apply Hiff in Hin as [Hne _]. now apply Hne.
  - split; [exact Hiff|]. repeat split; reflexivity.
Qed.

(** X2.  [registerPushToken] overwrites: of two registrations by the same
    connection only the later one counts.  The sockets, the registry and
    the sessions end up as if the first had never been sent, and nothing
    is emitted. *)
Theorem registerPushToken_last_wins (s : State) (id : string) (t1 t2 : jsval) :
  let s12 :=
    step (Receive id (RegisterPushToken t2))
         (step (Receive id (RegisterPushToken t1)) s) in
  let s2 := step (Receive id (RegisterPushToken t2)) s in
  st_sockets s12 = st_sockets s2 /\
  st_onlineUsers s12 = st_onlineUsers s2 /\
  st_heap s12 = st_heap s2 /\
  st_outbox s12 = st_outbox s /\
  st_outbox s2 = st_outbox s.
Proof.
  intros s12 s2. subst s12 s2.
  destruct (connected id s) eqn:Hc.
  - rewrite (step_receive id (RegisterPushToken t1) s Hc).
    rewrite (step_receive id (RegisterPushToken t2) s Hc).
    change (receive id (RegisterPushToken t1) s)
      with (on_registerPushToken id t1 s).
    rewrite (step_receive id _ (on_registerPushToken id t1 s))
      by (rewrite connected_register; exact Hc).
    destruct (register_twice id t1 t2 s) as (H1 & H2 & H3).
    repeat split; try assumption;
      change (receive id (RegisterPushToken t2) ?x)
        with (on_registerPushToken id t2 x);
      now rewrite ?register_outbox.
  - rewrite !(step_receive_ignored id _ s Hc). repeat split; reflexivity.
Qed.

(** X3.  A push token registered before joining is retained by the
    join: the session created by [joinRoom] carries the token, or [null]
    when the registered value is empty or missing. *)
Theorem token_registered_before_join (s : State) (id : string)
    (token username room : jsval) :
  connected id s = true ->
  let s1 := step (Receive id (RegisterPushToken token)) s in
  let s2 := step (Receive id (JoinRoom username room)) s1 in
  exists a,
    Registry.lookup id (st_onlineUsers s2) = Some a /\
    deref (st_heap s2) a =
      [("username", username); ("room", room); ("socketId", JString id);
       ("pushToken", if truthy token then token else JNull)].
Proof.
  intros Hc s1 s2. subst s2 s1.
  rewrite (step_receive id (RegisterPushToken token) s Hc).
  change (receive id (RegisterPushToken token) s)
    with (on_registerPushToken id token s).
  rewrite step_receive by (rewrite connected_register; exact Hc).
  unfold connected in Hc.
  destruct (find_socket id (st_sockets s)) as [k|] eqn:Hk; [|discriminate].
  assert (Hk1 : find_socket id (st_sockets (on_registerPushToken id token s)) =
                Some (mkSocket (sock_id k) token (sock_username k)
                        (sock_room k) (sock_rooms k))).
  { rewrite register_sockets, find_socket_update, Hk by reflexivity.
    apply find_socket_id in Hk as [-> _]. now rewrite String.eqb_refl. }
  apply find_socket_id in Hk as [Hid _].
  remember (on_registerPushToken id token s) as s1 eqn:Es1. clear Es1.
  simpl. unfold on_joinRoom. simpl. eexists. split; [apply lookup_assign|].
  rewrite deref_alloc_new.
  rewrite find_socket_update, Hk1 by reflexivity. simpl.
  now rewrite Hid, String.eqb_refl.
Qed.

(** X4.  A push token registered after joining is written into the
    connection's session in place: its [pushToken] becomes the new value,
    its other properties stay, the sessions of other connections and the
    registry are untouched, and nothing is emitted. *)
Theorem token_registered_after_join (tr : list Input) (id : string)
    (a : loc) (token : jsval) :
  let s := run tr init in
  Registry.lookup id (st_onlineUsers s) = Some a ->
  let s' := step (Receive id (RegisterPushToken token)) s in
  st_onlineUsers s' = st_onlineUsers s /\
  get "pushToken" (deref (st_heap s') a) = token /\
  (forall k, k <> "pushToken" ->
             get k (deref (st_heap s') a) = get k (deref (st_heap s) a)) /\
  (forall j b, j <> id -> Registry.lookup j (st_onlineUsers s) = Some b ->
               deref (st_heap s') b = deref (st_heap s) b) /\
  st_outbox s' = st_outbox s.
Proof.
  intros s Ha s'.
  pose proof (wf_reachable tr) as Hwf. pose proof (consistent_reachable tr) as Hco.
  fold s in Hwf, Hco.
  assert (Hc : connected id s = true).
  { pose proof (cons_connected s Hco) as H. rewrite Forall_forall in H.
    apply (H (id, a)). apply list_elem_of_In. now apply lookup_In. }
  assert (Hlt : (a < length (st_heap s))%nat).
  { exact (lookup_values _ _ _ _ (wf_registry s Hwf) Ha). }
  subst s'. rewrite (step_receive id _ s Hc).
  change (receive id (RegisterPushToken token) s)
    with (on_registerPushToken id token s).
  split; [apply register_registry|]. split; [|split; [|split]].
  - rewrite register_heap, Ha, deref_insert.
    destruct (decide _) as [_|Hn]; [apply get_set_eq|]. exfalso. tauto.
  - intros k Hk. now apply register_keeps.
  - intros j b Hj Hb. rewrite register_heap, Ha, deref_insert.
    destruct (decide _) as [[-> _]|_]; [|reflexivity].
    exfalso. pose proof (cons_socketId s Hco) as H. rewrite Forall_forall in H.
    pose proof (H (id, b) ltac:(apply list_elem_of_In; now apply lookup_In)) as H1.
    pose proof (H (j, b) ltac:(apply list_elem_of_In; now apply lookup_In)) as H2.
    simpl in H1, H2. congruence.
  - apply register_outbox.
Qed.

(** X5.  A connection that joins again keeps its place in the registry's
    enumeration order, and hence in the lists derived from it; a
    connection that joins for the first time is enumerated last. *)
Theorem rejoin_keeps_position (s : State) (id : string) (username room : jsval) :
  connected id s = true ->
  map fst (st_onlineUsers (step (Receive id (JoinRoom username room)) s)) =
  match Registry.lookup id (st_onlineUsers s) with
  | Some _ => map fst (st_onlineUsers s)
  | None => map fst (st_onlineUsers s) ++ [id]
  end.
Proof.
  intros Hc. rewrite (step_receive id _ s Hc). simpl. unfold on_joinRoom.
  simpl. apply assign_keys.
Qed.

Lemma step_keeps_membership (i : Input) (s : State) :
  changes_membership i = false ->
  st_onlineUsers (step i s) = st_onlineUsers s /\
  forall k a, k <> "pushToken" ->
              get k (deref (st_heap (step i s)) a) = get k (deref (st_heap s) a).
Proof.
  intros Hi. destruct i as [id|id e|id|p ok|dt]; simpl in *; try discriminate.
  - unfold on_connection. now destruct (find_socket id (st_sockets s)).
  - destruct (find_socket id (st_sockets s)); [|auto].
    destruct e as [t|u r|u r m|u r t]; simpl; try discriminate; auto.
    split; [apply register_registry|]. intros k a. apply register_keeps.
  - destruct (pending_lookup p (st_pending s)) as [q|]; [|auto].
    destruct (resume_frame q ok
                (with_pending (pending_remove p (st_pending s)) s))
      as (-> & -> & _). auto.
  - auto.
Qed.

Lemma run_keeps_membership (tr : list Input) (s : State) :
  forallb (fun i => negb (changes_membership i)) tr = true ->
  st_onlineUsers (run tr s) = st_onlineUsers s /\
  forall k a, k <> "pushToken" ->
              get k (deref (st_heap (run tr s)) a) = get k (deref (st_heap s) a).
Proof.
  revert s. induction tr as [|i tr IH]; simpl; intros s Htr; [auto|].
  apply andb_true_iff in Htr as [Hi Htr]. apply negb_true_iff in Hi.
  destruct (IH (step i s) Htr) as [-> H2].
  destruct (step_keeps_membership i s Hi) as [-> H3].
  split; [reflexivity|]. intros k a Hk. now rewrite H2, H3.
Qed.

Lemma room_users_frame (room : jsval) (s s' : State) :
  st_onlineUsers s' = st_onlineUsers s ->
  (forall a, get "room" (deref (st_heap s') a) = get "room" (deref (st_heap s) a)) ->
  room_users room s' = room_users room s.
Proof.
  intros Hr Hh. unfold room_users. rewrite Hr. apply lfilter_ext.
  intros a. now rewrite Hh.
Qed.

(** X6.  The registry is assigned to by [joinRoom] and deleted from by
    [disconnect] only.  Whatever else is served (push-token registrations,
    messages, typing indicators, settled fetches, saves and push calls),
    the registered connections, the room recorded for each of them and
    the connections listed for every room stay the same. *)
Theorem membership_changes_only_on_join_or_disconnect (tr : list Input)
    (s : State) :
  forallb (fun i => negb (changes_membership i)) tr = true ->
  st_onlineUsers (run tr s) = st_onlineUsers s /\
  (forall id, registered_room id (run tr s) = registered_room id s) /\
  (forall room,
     socket_ids (members room (run tr s)) = socket_ids (members room s)).
Proof.
  intros Htr. destruct (run_keeps_membership tr s Htr) as [Hr Hh].
  split; [exact Hr|]. split.
  - intros id. unfold registered_room. rewrite Hr.
    destruct (Registry.lookup id (st_onlineUsers s)); [|reflexivity].
    now rewrite Hh.
  - intros room. unfold members, socket_ids, sessions.
    rewrite (room_users_frame room s (run tr s) Hr) by (intros a; now apply Hh).
    rewrite !map_map. apply map_ext. intros a. now apply Hh.
Qed.

(** X7.  When no [joinRoom] and no [disconnect] is served while the
    history of a join is being fetched, the [onlineUsers] event that ends
    the join is the room's current member list as the registry has it at
    that moment, whatever else was served in between. *)
Theorem onlineUsers_exact_without_membership_change (s : State) (id : string)
    (username room : jsval) (tr : list Input) :
  connected id s = true ->
  forallb (fun i => negb (changes_membership i)) tr = true ->
  forallb (fun i => negb (is_settle_of (st_next s) i)) tr = true ->
  let s1 := step (Receive id (JoinRoom username room)) s in
  let s2 := run tr s1 in
  let s3 := step (Settle (st_next s) true) s2 in
  last (st_outbox s3) =
    Some (mkEmit (ToRoom room) (deliver (ToRoom room) (st_sockets s3))
                 (OnlineUsers (members room s3))).
Proof.
  intros Hc Hm Hs s1 s2 s3.
  assert (Hs1 : exists s0,
            s1 = suspend (AwaitFind id username room (room_users room s0)) s0).
  { subst s1. rewrite (step_receive id _ s Hc). simpl. unfold on_joinRoom.
    simpl. eexists. reflexivity. }
  destruct Hs1 as [s0 Hs1].
  assert (Hn : st_next s0 = st_next s).
  { assert (H : st_next s1 = S (st_next s)).
    { subst s1. rewrite (step_receive id _ s Hc). reflexivity. }
    rewrite Hs1 in H. simpl in H. lia. }
  assert (Hw : waiting (st_next s)
                 (AwaitFind id username room (room_users room s0)) s2).
  { subst s2. rewrite Hs1, <- Hn. apply waiting_run; [now rewrite Hn|].
    apply waiting_new. }
  destruct Hw as [Hw _].
  destruct (run_keeps_membership tr s1 Hm) as [Hr Hh]. fold s2 in Hr, Hh.
  assert (Hsnap : room_users room s0 = room_users room s2).
  { symmetry. rewrite (room_users_frame room s1 s2 Hr)
      by (intros a; now apply Hh).
    now rewrite Hs1. }
  subst s3. rewrite (step_settle _ _ _ _ Hw). simpl.
  rewrite last_snoc. rewrite Hsnap. reflexivity.
Qed.

Lemma member_session (room : jsval) (s : State) (o : obj) :
  consistent s -> In o (members room s) ->
  exists id a, In (id, a) (st_onlineUsers s) /\ o = deref (st_heap s) a /\
               get "socketId" o = JString id /\ get "room" o = room.
Proof.
  intros Hco Hin. unfold members, sessions, room_users in Hin.
  apply in_map_iff in Hin as (a & <- & Ha).
  apply filter_In in Ha as [Ha Hroom].
  unfold Registry.values in Ha. apply in_map_iff in Ha as ([id a'] & Heq & Hin).
  simpl in Heq. subst a'. exists id, a. split; [exact Hin|].
  split; [reflexivity|]. split; [|now apply strict_eq_eq].
  pose proof (cons_socketId s Hco) as H. rewrite Forall_forall in H.
  apply (H (id, a)). now apply list_elem_of_In.
Qed.

(** X8.  In every reachable state a connection is listed in the member
    list of a room exactly when that room is the one the registry records
    for it: a connection belongs to one room at most, and a room switch
    takes it out of the old room's list. *)
Theorem member_iff_registered_room (tr : list Input) (id : string)
    (room : jsval) :
  let s := run tr init in
  In (JString id) (socket_ids (members room s)) <->
  registered_room id s = Some room.
Proof.
  intros s. pose proof (consistent_reachable tr) as Hco. fold s in Hco.
  unfold socket_ids. rewrite in_map_iff. split.
  - intros (o & Hid & Hin).
    destruct (member_session room s o Hco Hin) as (k & a & Hka & -> & Hk & Hr).
    rewrite Hid in Hk. injection Hk as <-.
    unfold registered_room.
    rewrite (In_lookup id a _ (cons_keys s Hco) Hka). now rewrite Hr.
  - unfold registered_room.
    destruct (Registry.lookup id (st_onlineUsers s)) as [a|] eqn:Ha;
      [|discriminate].
    intros [= Hr]. exists (deref (st_heap s) a). split.
    + pose proof (cons_socketId s Hco) as H. rewrite Forall_forall in H.
      apply (H (id, a)). apply list_elem_of_In. now apply lookup_In.
    + unfold members, sessions, room_users. apply in_map. apply filter_In.
      split; [|now apply strict_eq_eq].
      unfold Registry.values. apply lookup_In in Ha.
      exact (in_map snd _ _ Ha).
Qed.

(** X9.  In every reachable state the member list of a room names no
    connection twice, and every member is the session of a socket that is
    still connected. *)
Theorem members_distinct_and_connected (tr : list Input) (room : jsval) :
  let s := run tr init in
  NoDup (socket_ids (members room s)) /\
  Forall (fun o => exists id, get "socketId" o = JString id /\
                              connected id s = true)
         (members room s).
Proof.
  intros s. pose proof (consistent_reachable tr) as Hco. fold s in Hco.
  split.
  - unfold socket_ids, members, sessions, room_users. rewrite map_map.
    apply map_lfilter_NoDup. unfold Registry.values. rewrite map_map.
    assert (Heq : map (fun x => get "socketId" (deref (st_heap s) (snd x)))
                      (st_onlineUsers s) =
                  map JString (map fst (st_onlineUsers s))).
    { rewrite map_map. pose proof (cons_socketId s Hco) as H.
      induction H as [|ka l Hka _ IH]; simpl; [reflexivity|].
      now rewrite Hka, IH. }
    rewrite Heq.
    assert (Hinj : Inj eq eq JString) by (intros x y [= ->]; reflexivity).
    exact (NoDup_fmap_2 JString _ (cons_keys s Hco)).
  - apply Forall_forall. intros o Ho. apply list_elem_of_In in Ho.
    destruct (member_session room s o Hco Ho) as (k & a & Hka & _ & Hk & _).
    exists k. split; [exact Hk|].
    pose proof (cons_connected s Hco) as H. rewrite Forall_forall in H.
    apply (H (k, a)). now apply list_elem_of_In.
Qed.

(** X10.  When a connection with a session disconnects, the session is
    deleted, the room recorded in it gets the "has left" message followed
    by its member list as it is after the deletion, and the handler logs
    the departure.  Neither event is delivered to the socket that left,
    and the list no longer names it. *)
Theorem disconnect_with_session (tr : list Input) (id : string) (a : loc) :
  let s := run tr init in
  Registry.lookup id (st_onlineUsers s) = Some a ->
  let user := deref (st_heap s) a in
  let room := get "room" user in
  let s' := step (Disconnect id) s in
  Registry.lookup id (st_onlineUsers s') = None /\
  connected id s' = false /\
  emitted_since (length (st_outbox s)) s' =
    [mkEmit (ToRoom room) (deliver (ToRoom room) (st_sockets s'))
            (system_message
               (to_text (get "username" user) +:+ " has left the room") s);
     mkEmit (ToRoom room) (deliver (ToRoom room) (st_sockets s'))
            (OnlineUsers (members room s'))] /\
  ~ In id (deliver (ToRoom room) (st_sockets s')) /\
  ~ In (JString id) (socket_ids (members room s')) /\
  st_console s' =
    st_console s ++ [LogDisconnected (get "username" user) room].
Proof.
  intros s Ha user room s'.
  pose proof (wf_reachable tr) as Hwf. pose proof (consistent_reachable tr) as Hco.
  fold s in Hwf, Hco.
  assert (Hco' : consistent s') by (apply consistent_step; assumption).
  assert (Hc : connected id s = true).
  { pose proof (cons_connected s Hco) as H. rewrite Forall_forall in H.
    apply (H (id, a)). apply list_elem_of_In. now apply lookup_In. }
  assert (Hs' : s' = on_disconnect id s).
  { subst s'. unfold connected in Hc. simpl.
    now destruct (find_socket id (st_sockets s)). }
  assert (Hreg : Registry.lookup id (st_onlineUsers s') = None).
  { rewrite Hs'. unfold on_disconnect. simpl. rewrite Ha. simpl.
    apply lookup_remove. }
  assert (Hsock : st_sockets s' = drop_socket id (st_sockets s)).
  { rewrite Hs'. unfold on_disconnect. simpl. now rewrite Ha. }
  split; [exact Hreg|]. split; [|split; [|split; [|split]]].
  - unfold connected. now rewrite Hsock, find_socket_dropped.
  - rewrite Hsock. rewrite Hs'. unfold emitted_since, on_disconnect. simpl.
    rewrite Ha. simpl. rewrite <- app_assoc, drop_app_length. reflexivity.
  - rewrite Hsock. apply deliver_dropped.
  - intros Hin. unfold socket_ids in Hin.
    apply in_map_iff in Hin as (o & Hid & Hin).
    destruct (member_session room s' o Hco' Hin) as (k & b & Hkb & _ & Hk & _).
    rewrite Hid in Hk. injection Hk as <-.
    apply lookup_None in Hreg. apply Hreg. exact (in_map fst _ _ Hkb).
  - rewrite Hs'. unfold on_disconnect. simpl. now rewrite Ha.
Qed.

(** X11.  A connection that disconnects while the history of its join is
    still being fetched leaves a trace: when the fetch resolves, the room
    gets an [onlineUsers] event that still lists the connection's
    session, although the registry has no session for it any more.  The
    event is not delivered to the socket that left. *)
Theorem disconnect_during_fetch_leaves_entry (s : State) (id : string)
    (username room : jsval) :
  connected id s = true ->
  let s1 := step (Receive id (JoinRoom username room)) s in
  let s2 := step (Disconnect id) s1 in
  let s3 := step (Settle (st_next s) true) s2 in
  Registry.lookup id (st_onlineUsers s3) = None /\
  exists recipients roomUsers,
    last (st_outbox s3) =
      Some (mkEmit (ToRoom room) recipients (OnlineUsers roomUsers)) /\
    In (JString id) (socket_ids roomUsers) /\
    ~ In id recipients.
Proof.
  intros Hc s1 s2 s3.
  assert (Hs1 : exists s0,
            s1 = suspend (AwaitFind id username room (room_users room s0)) s0 /\
            st_next s0 = st_next s /\
            Registry.lookup id (st_onlineUsers s0) = Some (length (st_heap s)) /\
            st_heap s0 = st_heap s ++
              [new_session id username room
                 match find_socket id (st_sockets s0) with
                 | Some k => sock_pushToken k
                 | None => JUndefined
                 end]).
  { subst s1. rewrite (step_receive id _ s Hc). simpl. unfold on_joinRoom.
    simpl. eexists. split; [reflexivity|]. split; [reflexivity|].
    split; [apply lookup_assign|reflexivity]. }
  destruct Hs1 as (s0 & Hs1 & Hn & Hreg & Hheap).
  assert (Hc1 : connected id s1 = true).
  { apply (joinRoom_registers s id username room) in Hc as [_ Hin].
    fold s1 in Hin. unfold in_transport_room in Hin. unfold connected.
    now destruct (find_socket id (st_sockets s1)). }
  assert (Hs2 : s2 = on_disconnect id s1).
  { subst s2. unfold connected in Hc1. simpl.
    now destruct (find_socket id (st_sockets s1)). }
  assert (Hreg1 : Registry.lookup id (st_onlineUsers s1) =
                  Some (length (st_heap s))) by (now rewrite Hs1).
  assert (Hw : waiting (st_next s)
                 (AwaitFind id username room (room_users room s0)) s2).
  { apply waiting_step; [reflexivity|]. rewrite Hs1, <- Hn. apply waiting_new. }
  destruct Hw as [Hw _].
  assert (Hh2 : st_heap s2 = st_heap s0).
  { rewrite Hs2. unfold on_disconnect. simpl. rewrite Hreg1. now rewrite Hs1. }
  assert (Hr2 : Registry.lookup id (st_onlineUsers s2) = None).
  { rewrite Hs2. unfold on_disconnect. simpl. rewrite Hreg1. simpl.
    apply lookup_remove. }
  assert (Hk2 : st_sockets s2 = drop_socket id (st_sockets s1)).
  { rewrite Hs2. unfold on_disconnect. simpl. now rewrite Hreg1. }
  subst s3. rewrite (step_settle _ _ _ _ Hw). simpl.
  split; [exact Hr2|].
  eexists _, _. split; [apply last_snoc|]. split.
  - rewrite Hh2. unfold socket_ids, sessions. rewrite map_map.
    apply in_map_iff. exists (length (st_heap s)). split.
    + rewrite Hheap. now rewrite deref_alloc_new.
    + unfold room_users. apply filter_In. split.
      * apply lookup_In in Hreg. exact (in_map snd _ _ Hreg).
      * rewrite Hheap, deref_alloc_new. simpl. apply strict_eq_refl.
  - rewrite Hk2. apply deliver_dropped.
Qed.

(** X12.  A failed push call does not stop the chunk loop.  Whatever the
    outcomes of the calls, every remaining chunk is handed to the
    transport, in order and once, and each call is logged as sent or as
    failed; nothing is emitted or stored. *)
Theorem push_chunks_all_sent (s : State) (p : nat)
    (chunk : list Notification) (rest : list (list Notification))
    (ok : bool) (oks : list bool) :
  pending_lookup p (st_pending s) = Some (AwaitPush chunk rest) ->
  length oks = length rest ->
  let s' := run (Settle p ok :: settle_from (st_next s) oks) s in
  st_pushed s' = st_pushed s ++ rest /\
  st_console s' = st_console s ++ map push_log (ok :: oks) /\
  st_outbox s' = st_outbox s /\
  st_store s' = st_store s.
Proof.
  revert s p chunk ok oks.
  induction rest as [|c rest IH]; intros s p chunk ok oks Hp Hlen.
  - destruct oks; [|discriminate]. simpl. rewrite Hp. simpl.
    rewrite app_nil_r. repeat split; reflexivity.
  - destruct oks as [|ok' oks]; [discriminate|]. injection Hlen as Hlen.
    intros s'. subst s'.
    change (run (Settle p ok :: settle_from (st_next s) (ok' :: oks)) s)
      with (run (Settle (st_next s) ok' :: settle_from (S (st_next s)) oks)
                (step (Settle p ok) s)).
    rewrite (step_settle _ _ _ _ Hp).
    set (s1 := resume (AwaitPush chunk (c :: rest)) ok
                 (with_pending (pending_remove p (st_pending s)) s)).
    assert (Hp1 : pending_lookup (st_next s) (st_pending s1) =
                  Some (AwaitPush c rest))
      by (simpl; now rewrite Nat.eqb_refl).
    destruct (IH s1 (st_next s) c ok' oks Hp1 Hlen) as (H1 & H2 & H3 & H4).
    change (st_next s1) with (S (st_next s)) in H1, H2, H3, H4.
    rewrite H1, H2, H3, H4. simpl. rewrite <- !app_assoc.
    repeat split; reflexivity.
Qed.

Lemma step_store (i : Input) (s : State) :
  st_store s `prefix_of` st_store (step i s).
Proof.
  destruct i as [id|id e|id|p ok|dt]; simpl.
  - unfold on_connection. now destruct (find_socket id (st_sockets s)).
  - destruct (find_socket id (st_sockets s)); [|done].
    destruct e as [t|u r|u r m|u r t]; simpl; try done.
    unfold on_registerPushToken. simpl.
    now destruct (Registry.lookup id (st_onlineUsers s)).
  - destruct (find_socket id (st_sockets s)); [|done].
    unfold on_disconnect. simpl.
    now destruct (Registry.lookup id (st_onlineUsers s)).
  - destruct (pending_lookup p (st_pending s)) as [k|]; [|done].
    destruct k as [id u r l|id u r m doc|c rest]; simpl.
    + unfold joinRoom_resume. now destruct ok.
    + destruct ok; [|done].
      destruct (sendMessage_resume_ok u r m doc
                  (with_pending (pending_remove p (st_pending s)) s))
        as [_ ->]. simpl. now apply prefix_app_r.
    + now destruct rest.
  - done.
Qed.

Lemma run_store (tr : list Input) (s : State) :
  st_store s `prefix_of` st_store (run tr s).
Proof.
  revert s. induction tr as [|i tr IH]; simpl; intros s; [done|].
  etrans; [apply step_store|apply IH].
Qed.

(** X13.  The store is append-only: whatever is served, the messages
    saved so far stay in the store, unchanged and in the same order, and
    so does the part of each room's log they make up. *)
Theorem store_append_only (tr : list Input) (s : State) (room : jsval) :
  st_store s `prefix_of` st_store (run tr s) /\
  Store.find room (st_store s) `prefix_of`
    Store.find room (st_store (run tr s)).
Proof.
  destruct (run_store tr s) as [k Hk]. split; [now exists k|].
  rewrite Hk. unfold Store.find. rewrite List.filter_app.
  now apply prefix_app_r.
Qed.

Lemma settle_find_history (s : State) (p : nat) (id : string)
    (username room : jsval) (roomUsers : list loc) :
  pending_lookup p (st_pending s) =
    Some (AwaitFind id username room roomUsers) ->
  chatHistory_sent id (step (Settle p true) s) =
  chatHistory_sent id s ++ [Store.history room (st_store s)].
Proof.
  intros Hp. rewrite (step_settle _ _ _ _ Hp). unfold chatHistory_sent. simpl.
  rewrite !flat_map_app. simpl. rewrite String.eqb_refl.
  now rewrite !app_nil_r.
Qed.

Lemma history_small_room (room : jsval) (st : list Message) :
  (length (Store.find room st) <= 50)%nat ->
  Store.history room st = Store.sort_asc (Store.find room st).
Proof.
  intros Hlen. unfold Store.history, Store.limit. apply take_ge.
  now rewrite (Permutation_length (sort_asc_perm _)).
Qed.

(** X14.  While a room has at most 50 stored messages, a join whose fetch
    succeeds delivers the room's whole history: every stored message of
    the room, once, oldest first. *)
Theorem chatHistory_complete_for_small_room (s : State) (p : nat)
    (id : string) (username room : jsval) (roomUsers : list loc) :
  pending_lookup p (st_pending s) =
    Some (AwaitFind id username room roomUsers) ->
  (length (Store.find room (st_store s)) <= 50)%nat ->
  exists msgs,
    chatHistory_sent id (step (Settle p true) s) =
      chatHistory_sent id s ++ [msgs] /\
    msgs ≡ₚ Store.find room (st_store s) /\
    StronglySorted timestamp_asc msgs.
Proof.
  intros Hp Hlen. exists (Store.history room (st_store s)). split.
  - now apply (settle_find_history s p id username room roomUsers).
  - rewrite (history_small_room _ _ Hlen).
    split; [apply sort_asc_perm|apply sort_asc_sorted].
Qed.

(** X15.  A message whose save succeeded is part of the history that
    later joiners of its room receive, as long as the room has at most 50
    stored messages when their fetch resolves. *)
Theorem saved_message_reaches_later_joiners (s : State) (p q : nat)
    (sender joiner : string) (username message username' : jsval)
    (newMessage : Message) (roomUsers : list loc) (tr : list Input) :
  pending_lookup p (st_pending s) =
    Some (AwaitSave sender username (msg_room newMessage) message newMessage) ->
  let s1 := run tr (step (Settle p true) s) in
  pending_lookup q (st_pending s1) =
    Some (AwaitFind joiner username' (msg_room newMessage) roomUsers) ->
  (length (Store.find (msg_room newMessage) (st_store s1)) <= 50)%nat ->
  exists msgs,
    chatHistory_sent joiner (step (Settle q true) s1) =
      chatHistory_sent joiner s1 ++ [msgs] /\
    In newMessage msgs.
Proof.
  intros Hp s1 Hq Hlen.
  exists (Store.history (msg_room newMessage) (st_store s1)).
  split; [now apply (settle_find_history s1 q joiner username' _ roomUsers)|].
  rewrite (history_small_room _ _ Hlen).
  apply (Permutation_in _ (Permutation_sym (sort_asc_perm _))).
  unfold Store.find. apply filter_In. split; [|apply strict_eq_refl].
  destruct (run_store tr (step (Settle p true) s)) as [k Hk].
  fold s1 in Hk. rewrite Hk. apply in_or_app. left.
  rewrite (step_settle _ _ _ _ Hp). unfold resume.
  destruct (sendMessage_resume_ok username (msg_room newMessage) message
              newMessage (with_pending (pending_remove p (st_pending s)) s))
    as [_ ->].
  apply in_or_app. right. now left.
Qed.

Lemma remove_lookup_none (id j : string) (r : Registry.t) :
  Registry.lookup id r = None ->
  Registry.lookup id (Registry.remove j r) = None.
Proof.
  rewrite !lookup_None. intros H Hin. apply H.
  apply in_map_iff in Hin as (ka & <- & Hka).
  apply remove_In in Hka as [Hka _]. now apply in_map.
Qed.

Lemma step_lookup_none (id : string) (i : Input) (s : State) :
  is_join_of id i = false ->
  Registry.lookup id (st_onlineUsers s) = None ->
  Registry.lookup id (st_onlineUsers (step i s)) = None.
Proof.
  intros Hi Hn. destruct (changes_membership i) eqn:Hm.
  - destruct i as [j|j e|j|p ok|dt]; simpl in *; try discriminate.
    + destruct (find_socket j (st_sockets s)); [|exact Hn].
      destruct e as [t|u r|u r m|u r t]; simpl in *; try discriminate.
      unfold on_joinRoom. simpl. rewrite lookup_assign_ne; [exact Hn|].
      apply String.eqb_neq in Hi. congruence.
    + destruct (find_socket j (st_sockets s)); [|exact Hn].
      unfold on_disconnect. simpl.
      destruct (Registry.lookup j (st_onlineUsers s)); [|exact Hn].
      simpl. now apply remove_lookup_none.
  - now rewrite (proj1 (step_keeps_membership i s Hm)).
Qed.

Lemma run_app (tr1 tr2 : list Input) (s : State) :
  run (tr1 ++ tr2) s = run tr2 (run tr1 s).
Proof. unfold run. apply fold_left_app. Qed.

(** X18.  Connecting does not make a connection appear online: a new
    connection has no session, and until it sends [joinRoom] it is listed
    in the member list of no room, whatever else it or others do. *)
Theorem not_listed_until_join (tr0 : list Input) (id : string)
    (tr : list Input) :
  let s := run tr0 init in
  connected id s = false ->
  forallb (fun i => negb (is_join_of id i)) tr = true ->
  let s' := run (Connect id :: tr) s in
  registered_room id s' = None /\
  forall room, ~ In (JString id) (socket_ids (members room s')).
Proof.
  intros s Hc Htr s'.
  pose proof (consistent_reachable tr0) as Hco. fold s in Hco.
  assert (Hn : Registry.lookup id (st_onlineUsers s) = None).
  { destruct (Registry.lookup id (st_onlineUsers s)) as [a|] eqn:E;
      [|reflexivity].
    pose proof (cons_connected s Hco) as H. rewrite Forall_forall in H.
    pose proof (H (id, a) ltac:(apply list_elem_of_In; now apply lookup_In))
      as H1. simpl in H1. congruence. }
  assert (Hn' : Registry.lookup id (st_onlineUsers s') = None).
  { subst s'. simpl.
    assert (G : forall t, Registry.lookup id (st_onlineUsers t) = None ->
                          Registry.lookup id (st_onlineUsers (run tr t)) = None).
    { clear -Htr. induction tr as [|i tr IH]; simpl; intros t Ht; [exact Ht|].
      apply andb_true_iff in Htr as [Hi Htr]. apply negb_true_iff in Hi.
      apply IH; [exact Htr|]. now apply step_lookup_none. }
    apply G. unfold on_connection.
    now destruct (find_socket id (st_sockets s)). }
  split; [unfold registered_room; now rewrite Hn'|].
  intros room Hin.
  assert (Hco' : consistent s').
  { subst s' s. rewrite <- run_app. apply consistent_reachable. }
  unfold socket_ids in Hin. apply in_map_iff in Hin as (o & Hid & Hin).
  destruct (member_session room s' o Hco' Hin) as (k & b & Hkb & _ & Hk & _).
  rewrite Hid in Hk. injection Hk as <-.
  apply lookup_None in Hn'. apply Hn'. exact (in_map fst _ _ Hkb).
Qed.

End Handlers.

(** ** The earlier revision: the shape of its sessions *)

Section Shape.

Variable P : obj -> Prop.

Lemma shaped_frame (s s' : State) :
  st_heap s' = st_heap s -> st_onlineUsers s' = st_onlineUsers s ->
  st_pending s' = st_pending s -> st_outbox s' = st_outbox s ->
  shaped P s -> shaped P s'.
Proof.
  intros Hh Hr Hp Ho [H1 H2 H3 H4].
  split; rewrite ?Hh, ?Hr, ?Hp, ?Ho; assumption.
Qed.

Lemma shaped_emit (t : Target) (p : Payload) (s : State) :
  shaped P s ->
  match p with OnlineUsers l => Forall P l | _ => True end ->
  shaped P (emit t p s).
Proof.
  intros [H1 H2 H3 H4] Hp. split; try assumption.
  simpl. apply Forall_app. split; [assumption|]. repeat constructor. exact Hp.
Qed.

Lemma shaped_console (e : LogEntry) (s : State) :
  shaped P s -> shaped P (console e s).
Proof. now apply shaped_frame. Qed.

Lemma shaped_suspend (k : Pending) (s : State) :
  shaped P s -> snapshot_ok (st_heap s) k -> shaped P (suspend k s).
Proof.
  intros [H1 H2 H3 H4] Hk. split; try assumption. simpl. now constructor.
Qed.

Lemma shaped_forget (p : nat) (s : State) :
  shaped P s -> shaped P (with_pending (pending_remove p (st_pending s)) s).
Proof.
  intros [H1 H2 H3 H4]. split; try assumption. simpl.
  unfold pending_remove. now apply Forall_lfilter.
Qed.

Lemma shaped_sessions (s : State) (l : list loc) :
  shaped P s -> Forall (fun a => (a < length (st_heap s))%nat) l ->
  Forall P (sessions (st_heap s) l).
Proof.
  intros [H1 _ _ _]. unfold sessions. induction 1 as [|a l Ha _ IH]; simpl;
    constructor; [|exact IH].
  unfold deref. destruct (lookup_lt_is_Some_2 _ _ Ha) as [o Ho].
  rewrite Ho. simpl. exact (Forall_lookup_1 _ _ _ _ H1 Ho).
Qed.

Lemma shaped_connection (id : string) (s : State) :
  shaped P s -> shaped P (Legacy.on_connection id s).
Proof.
  intros H. unfold Legacy.on_connection. destruct (find_socket _ _); [assumption|].
  revert H. now apply shaped_frame.
Qed.

Lemma shaped_joinRoom_resume (id : string) (u r : jsval) (l : list loc)
    (ok : bool) (s : State) :
  shaped P s -> Forall (fun a => (a < length (st_heap s))%nat) l ->
  shaped P (joinRoom_resume id u r l ok s).
Proof.
  intros H Hl. unfold joinRoom_resume.
  destruct ok; [|revert H; now apply shaped_frame].
  apply (shaped_frame
           (emit (ToRoom r) (OnlineUsers (sessions (st_heap s) l))
              (emit (ToRoom r)
                 (system_message (to_text u +:+ " has joined the room")
                    (emit (ToSocket id) (ChatHistory (Store.history r (st_store s))) s))
                 (emit (ToSocket id) (ChatHistory (Store.history r (st_store s))) s))));
    try reflexivity.
  apply shaped_emit; [|now apply shaped_sessions].
  apply shaped_emit; [|exact I]. now apply shaped_emit.
Qed.

Lemma shaped_disconnect (id : string) (s : State) :
  shaped P s -> shaped P (Legacy.on_disconnect id s).
Proof.
  intros H. unfold Legacy.on_disconnect.
  set (s0 := with_sockets _ s).
  assert (H0 : shaped P s0) by (revert H; now apply shaped_frame).
  destruct (Registry.lookup id (st_onlineUsers s0)) as [a|]; [|assumption].
  set (s1 := with_onlineUsers _ s0).
  assert (H1 : shaped P s1).
  { destruct H0 as [G1 G2 G3 G4]. split; try assumption. simpl.
    now apply remove_values. }
  set (room := get "room" (deref (st_heap s0) a)).
  apply (shaped_frame
           (emit (ToRoom room) (OnlineUsers (sessions (st_heap s1) (room_users room s1)))
              (emit (ToRoom room)
                 (system_message
                    (to_text (get "username" (deref (st_heap s0) a)) +:+
                     " has left the room") s1) s1))); try reflexivity.
  apply shaped_emit; [now apply shaped_emit|].
  apply shaped_sessions; [assumption|].
  unfold room_users. apply Forall_lfilter. apply (sh_registry P s1 H1).
Qed.

End Shape.


Lemma legacy_joinRoom (id : string) (u r : jsval) (s : State) :
  shaped legacy_session s -> shaped legacy_session (Legacy.on_joinRoom id u r s).
Proof.
  intros H. unfold Legacy.on_joinRoom. simpl.
  set (s2 := with_onlineUsers _ _).
  assert (H2 : shaped legacy_session s2).
  { destruct H as [G1 G2 G3 G4]. split; simpl; try assumption.
    - apply Forall_app. split; [assumption|]. repeat constructor.
    - rewrite length_app. simpl. apply assign_values; [lia|].
      eapply Forall_impl; [exact G2|]. simpl. intros a. lia.
    - eapply Forall_impl; [exact G3|]. simpl. intros qk.
      apply snapshot_ok_mono. rewrite length_app. lia. }
  apply shaped_suspend; [assumption|]. simpl.
  unfold room_users. apply Forall_lfilter. apply (sh_registry _ s2 H2).
Qed.

Lemma legacy_step (i : Input) (s : State) :
  shaped legacy_session s -> shaped legacy_session (Legacy.step i s).
Proof.
  intros H. destruct i as [id|id e|id|p ok|dt]; simpl.
  - now apply shaped_connection.
  - destruct (find_socket _ _); [|assumption].
    destruct e as [t|u r|u r m|u r t]; simpl.
    + assumption.
    + now apply legacy_joinRoom.
    + apply shaped_suspend; [assumption|exact I].
    + apply shaped_emit; [assumption|exact I].
  - destruct (find_socket _ _); [|assumption]. now apply shaped_disconnect.
  - destruct (pending_lookup p (st_pending s)) as [k|] eqn:E; [|assumption].
    pose proof (shaped_forget _ p s H) as H'.
    destruct k as [id u r l|id u r m doc|c rest]; simpl.
    + apply shaped_joinRoom_resume; [assumption|]. simpl.
      apply pending_lookup_In, list_elem_of_In in E.
      pose proof (sh_snapshots _ s H) as G.
      rewrite Forall_forall in G. exact (G _ E).
    + unfold Legacy.sendMessage_resume.
      destruct ok; [|revert H'; now apply shaped_frame].
      apply shaped_console, shaped_emit; [|exact I].
      revert H'. now apply shaped_frame.
    + assumption.
  - revert H. now apply shaped_frame.
Qed.

(** X16.  In the earlier revision of the server every entry of every
    [onlineUsers] event consists of exactly [username], [room] and
    [socketId]. *)
Theorem legacy_onlineUsers_entries (tr : list Input) :
  Forall
    (fun e =>
       match em_payload e with
       | OnlineUsers roomUsers =>
           Forall (fun user => keys user = ["username"; "room"; "socketId"])
                  roomUsers
       | _ => True
       end)
    (st_outbox (Legacy.run tr init)).
Proof.
  assert (G : forall s, shaped legacy_session s ->
                        shaped legacy_session (Legacy.run tr s)).
  { induction tr as [|i tr IH]; simpl; intros s H; [assumption|].
    apply IH. now apply legacy_step. }
  apply (sh_outbox legacy_session). apply G. split; simpl; constructor.
Qed.

(** ** The earlier revision and [server.js] without push tokens *)

Lemma get_strip (k : string) (o : obj) :
  k <> "pushToken" -> get k (strip o) = get k o.
Proof.
  intros Hk. unfold strip. induction o as [|[k' v] o IH]; simpl; [reflexivity|].
  destruct (String.eqb k' "pushToken") eqn:E; simpl.
  - apply String.eqb_eq in E. subst k'.
    apply String.eqb_neq in Hk. now rewrite Hk.
  - now rewrite IH.
Qed.

Lemma deref_strip (h : heap) (a : loc) :
  deref (map strip h) a = strip (deref h a).
Proof.
  unfold deref. change (map strip h) with (strip <$> h).
  rewrite list_lookup_fmap. now destruct (h !! a).
Qed.

Lemma sessions_strip (h : heap) (l : list loc) :
  sessions (map strip h) l = map strip (sessions h l).
Proof.
  unfold sessions. rewrite map_map. apply map_ext. intros a. apply deref_strip.
Qed.

Lemma room_users_strip (room : jsval) (s : State) :
  room_users room (strip_state s) = room_users room s.
Proof.
  unfold room_users. simpl. apply lfilter_ext. intros a.
  now rewrite deref_strip, get_strip.
Qed.

Ltac flatten_state :=
  cbv [strip_state console emit suspend system_message with_heap
       with_onlineUsers with_sockets with_store with_clock with_outbox
       with_console with_pushed with_pending with_next];
  simpl.

Lemma strip_emit_state (t : Target) (p : Payload) (s : State) :
  strip_state (emit t p s) = emit t (strip_payload p) (strip_state s).
Proof. flatten_state. now rewrite map_app. Qed.

Lemma strip_connection (id : string) (s : State) :
  strip_state (on_connection id s) = Legacy.on_connection id (strip_state s).
Proof.
  unfold on_connection, Legacy.on_connection. simpl.
  destruct (find_socket id (st_sockets s)); [reflexivity|].
  flatten_state. now rewrite map_app.
Qed.

Lemma strip_joinRoom_resume (id : string) (u r : jsval) (l : list loc)
    (ok : bool) (s : State) :
  strip_state (joinRoom_resume id u r l ok s) =
  joinRoom_resume id u r l ok (strip_state s).
Proof.
  unfold joinRoom_resume.
  destruct ok; [|flatten_state; now rewrite map_app].
  flatten_state. rewrite !map_app. simpl. now rewrite sessions_strip.
Qed.

Lemma strip_disconnect (id : string) (s : State) :
  strip_state (on_disconnect id s) = Legacy.on_disconnect id (strip_state s).
Proof.
  unfold on_disconnect, Legacy.on_disconnect. simpl.
  destruct (Registry.lookup id (st_onlineUsers s)) as [a|]; [|reflexivity].
  rewrite !deref_strip, !get_strip by discriminate.
  set (room := get "room" (deref (st_heap s) a)).
  assert (Hru : room_users room
                  (with_onlineUsers (Registry.remove id (st_onlineUsers s))
                     (with_sockets (drop_socket id (st_sockets s))
                        (strip_state s))) =
                room_users room
                  (with_onlineUsers (Registry.remove id (st_onlineUsers s))
                     (with_sockets (drop_socket id (st_sockets s)) s))).
  { apply room_users_frame; [reflexivity|]. intros b. simpl.
    now rewrite deref_strip, get_strip. }
  rewrite Hru. flatten_state. rewrite !map_app. simpl.
  now rewrite sessions_strip.
Qed.

Lemma strip_joinRoom (id : string) (u r : jsval) (s : State) :
  strip_state (on_joinRoom id u r s) = Legacy.on_joinRoom id u r (strip_state s).
Proof.
  unfold on_joinRoom, Legacy.on_joinRoom. simpl.
  set (l := update_socket id _ (st_sockets s)).
  set (o := new_session id u r _).
  assert (Hru : room_users r
            (with_onlineUsers
               (Registry.assign id (length (map strip (st_heap s)))
                  (st_onlineUsers s))
               (with_heap (map strip (st_heap s) ++ [Legacy.new_session id u r])
                  (with_sockets l (strip_state s)))) =
          room_users r
            (with_onlineUsers
               (Registry.assign id (length (st_heap s)) (st_onlineUsers s))
               (with_heap (st_heap s ++ [o]) (with_sockets l s)))).
  { rewrite length_map. apply room_users_frame; [reflexivity|]. intros b. simpl.
    change (map strip (st_heap s) ++ [Legacy.new_session id u r])
      with (map strip (st_heap s) ++ map strip [o]).
    rewrite <- map_app. now rewrite deref_strip, get_strip. }
  rewrite Hru. flatten_state. now rewrite map_app, length_map.
Qed.

Section Simulation.

Context `{Expo : ExpoSdk}.

Lemma quiet_no_candidates (u r : jsval) (s : State) :
  quiet s ->
  List.filter (push_candidate u r)
              (sessions (st_heap s) (Registry.values (st_onlineUsers s))) = [].
Proof.
  intros [_ Hh _]. unfold sessions.
  induction (Registry.values (st_onlineUsers s)) as [|a l IH]; simpl;
    [reflexivity|].
  assert (Hf : truthy (get "pushToken" (deref (st_heap s) a)) = false).
  { unfold deref. destruct (st_heap s !! a) as [o|] eqn:E; [|reflexivity].
    simpl. exact (Forall_lookup_1 _ _ _ _ Hh E). }
  unfold push_candidate at 1. rewrite Hf, andb_false_r. exact IH.
Qed.

Lemma quiet_frame (s s' : State) :
  st_sockets s' = st_sockets s -> st_heap s' = st_heap s ->
  st_pending s' = st_pending s -> quiet s -> quiet s'.
Proof. intros Hk Hh Hp [H1 H2 H3]. split; now rewrite ?Hk, ?Hh, ?Hp. Qed.

Lemma quiet_forget (p : nat) (s : State) :
  quiet s -> quiet (with_pending (pending_remove p (st_pending s)) s).
Proof.
  intros [H1 H2 H3]. split; try assumption. simpl.
  unfold pending_remove. now apply Forall_lfilter.
Qed.

Lemma simulation_step (i : Input) (s : State) :
  registers_token i = false -> quiet s ->
  Legacy.step i (strip_state s) = strip_state (step i s) /\ quiet (step i s).
Proof.
  intros Hi Hq. destruct i as [id|id e|id|p ok|dt]; simpl.
  - split; [symmetry; apply strip_connection|].
    unfold on_connection. destruct (find_socket id (st_sockets s)); [assumption|].
    destruct Hq as [H1 H2 H3]. split; try assumption. simpl.
    apply Forall_app. split; [assumption|]. now repeat constructor.
  - destruct (find_socket id (st_sockets s)) as [k|] eqn:Hk; [|auto].
    destruct e as [t|u r|u r m|u r t]; simpl in *; try discriminate.
    + split; [symmetry; apply strip_joinRoom|].
      destruct Hq as [H1 H2 H3]. unfold on_joinRoom. split; simpl.
      * unfold update_socket. apply Forall_map.
        eapply Forall_impl; [exact H1|]. simpl. intros x Hx.
        now destruct (String.eqb (sock_id x) id).
      * apply Forall_app. split; [assumption|]. repeat constructor.
        rewrite find_socket_update, Hk by reflexivity. simpl.
        assert (Hu : sock_pushToken k = JUndefined).
        { rewrite Forall_forall in H1. apply H1.
          apply find_socket_id in Hk as [_ Hin]. now apply list_elem_of_In. }
        destruct (String.eqb (sock_id k) id); simpl; now rewrite Hu.
      * now constructor.
    + split; [reflexivity|]. destruct Hq as [H1 H2 H3].
      split; try assumption. simpl. now constructor.
    + split; [symmetry; apply strip_emit_state|].
      revert Hq. now apply quiet_frame.
  - destruct (find_socket id (st_sockets s)); [|auto].
    split; [symmetry; apply strip_disconnect|].
    unfold on_disconnect. simpl.
    destruct (Registry.lookup id (st_onlineUsers s)).
    + destruct Hq as [H1 H2 H3]. split; try assumption. simpl.
      unfold drop_socket. now apply Forall_lfilter.
    + destruct Hq as [H1 H2 H3]. split; try assumption. simpl.
      unfold drop_socket. now apply Forall_lfilter.
  - destruct (pending_lookup p (st_pending s)) as [k|] eqn:E; [|auto].
    pose proof (quiet_forget p s Hq) as Hq'.
    set (s0 := with_pending (pending_remove p (st_pending s)) s) in *.
    change (with_pending (pending_remove p (st_pending s)) (strip_state s))
      with (strip_state s0).
    destruct k as [id u r l|id u r m doc|c rest]; simpl.
    + split; [symmetry; apply strip_joinRoom_resume|].
      unfold joinRoom_resume. destruct ok; revert Hq'; now apply quiet_frame.
    + unfold sendMessage_resume, Legacy.sendMessage_resume.
      destruct ok;
        [|split; [subst s0; flatten_state; now rewrite map_app
                 |revert Hq'; now apply quiet_frame]].
      set (s3 := console _ (emit _ _ (with_store _ s0))).
      assert (Hq3 : quiet s3) by (revert Hq'; now apply quiet_frame).
      rewrite (quiet_no_candidates u r s3 Hq3).
      split; [|exact Hq3]. subst s3 s0.
      flatten_state. now rewrite !map_app.
    + exfalso. apply pending_lookup_In in E.
      pose proof (q_pending s Hq) as H. rewrite Forall_forall in H.
      apply (H (p, AwaitPush c rest)). now apply list_elem_of_In.
  - split; [reflexivity|]. revert Hq. now apply quiet_frame.
Qed.

Lemma simulation_run (tr : list Input) (s : State) :
  forallb (fun i => negb (registers_token i)) tr = true -> quiet s ->
  Legacy.run tr (strip_state s) = strip_state (run tr s).
Proof.
  revert s. induction tr as [|i tr IH]; simpl; intros s Htr Hq; [reflexivity|].
  apply andb_true_iff in Htr as [Hi Htr]. apply negb_true_iff in Hi.
  destruct (simulation_step i s Hi Hq) as [-> Hq']. now apply IH.
Qed.

(** X17.  As long as no connection registers a push token, [server.js]
    behaves like the earlier revision: on the same inputs both reach the
    same registry, sockets, store, suspended handlers and events, up to
    the [pushToken] property that the sessions of [server.js] carry, and
    [server.js] hands nothing to the push transport.  The two consoles
    correspond line by line; the connection, message and departure lines
    are worded differently in the two revisions. *)
Theorem server_without_tokens_is_legacy (tr : list Input) :
  forallb (fun i => negb (registers_token i)) tr = true ->
  Legacy.run tr init = strip_state (run tr init) /\
  st_pushed (run tr init) = [] /\
  st_console (Legacy.run tr init) = map legacy_log (st_console (run tr init)).
Proof.
  intros Htr.
  assert (Hq : quiet init) by (split; simpl; constructor).
  pose proof (simulation_run tr init Htr Hq) as H.
  split; [exact H|]. split; [|exact (f_equal st_console H)].
  assert (G : forall tr0 s, st_pushed (Legacy.run tr0 s) = st_pushed s).
  { induction tr0 as [|i tr0 IH]; simpl; intros s; [reflexivity|].
    rewrite IH. destruct i as [id|id e|id|p ok|dt]; simpl; try reflexivity.
    - unfold Legacy.on_connection.
      now destruct (find_socket id (st_sockets s)).
    - destruct (find_socket id (st_sockets s)); [|reflexivity].
      now destruct e.
    - destruct (find_socket id (st_sockets s)); [|reflexivity].
      unfold Legacy.on_disconnect. simpl.
      now destruct (Registry.lookup id (st_onlineUsers s)).
    - destruct (pending_lookup p (st_pending s)) as [k|]; [|reflexivity].
      destruct k; simpl; try reflexivity.
      + unfold joinRoom_resume. now destruct ok.
      + unfold Legacy.sendMessage_resume. now destruct ok. }
  change (st_pushed (run tr init)) with (st_pushed (strip_state (run tr init))).
  rewrite <- H. apply G.
Qed.

End Simulation.

(** ** Events as they arrive: the process *)





Section Arrivals.

Context `{Expo : ExpoSdk}.





End Arrivals.

(** ** The claims on concrete runs

    The runs below use the reference implementation of the SDK
    functions. *)

#[local] Existing Instance ExpoReference.sdk.

Import Scenario.

(** C1.  Alice and bob join the lobby from two connections.  Bob's join
    arrives while alice's handler waits for its history, and bob's history
    arrives first.  Each handler broadcasts the list it computed before
    waiting: the room first gets alice and bob, then alice alone.  After
    both joins have completed, the last [onlineUsers] event holds alice
    only, while the registry has alice and bob in the lobby. *)
Theorem overlapping_joins_stale_onlineUsers :
  let s := run overlapping_joins init in
  onlineUsers_sent lobby s =
    [[alice_session; bob_session]; [alice_session]] /\
  last (st_outbox s) =
    Some (mkEmit (ToRoom lobby) ["a"; "b"] (OnlineUsers [alice_session])) /\
  members lobby s = [alice_session; bob_session] /\
  st_pending s = [].
Proof. vm_compute. repeat split; reflexivity. Qed.

(** C2, counterexample.  The clock reads 1000 when alice's message
    arrives and 1005 when its save completes; the broadcast and the stored
    document carry 1000, the reading taken before the save. *)
Lemma message_timestamp_precedes_save :
  let s0 := run before_send init in
  let s2 := run slow_save init in
  let s3 := step (Settle 1 true) s2 in
  st_clock s0 = 1000 /\
  st_clock s2 = 1005 /\
  st_clock s3 = 1005 /\
  emitted_since (length (st_outbox s2)) s3 =
    [mkEmit (ToRoom lobby) ["a"]
            (MessageEv (mkMessageEvent alice (JString "hi") 1000 false))] /\
  st_store s3 = [mkMessage alice lobby (JString "hi") 1000].
Proof. vm_compute. repeat split; reflexivity. Qed.

(** C4, counterexample.  The lobby holds 51 messages with timestamps 1 to
    51.  The history sent to a newcomer has the messages 1 to 50; the 50
    most recent ones are 2 to 51, and the newest message is left out. *)
Lemma chatHistory_misses_newest :
  let s := run late_joiner init in
  let room_log := Store.sort_asc (Store.find lobby (st_store s)) in
  map msg_timestamp room_log = map Z.of_nat (seq 1 51) /\
  map (map msg_timestamp) (chatHistory_sent "b" s) = [map Z.of_nat (seq 1 50)] /\
  map msg_timestamp (drop (length room_log - 50) room_log) =
    map Z.of_nat (seq 2 50).
Proof. vm_compute. repeat split; reflexivity. Qed.



(** C7, counterexample.  Bob registered a push token before joining the
    lobby.  When alice joins, the [onlineUsers] event delivered to both
    sockets contains bob's token. *)
Lemma onlineUsers_carries_pushToken :
  let s := run token_in_room init in
  let bob_entry :=
    [("username", bob); ("room", lobby); ("socketId", JString "b");
     ("pushToken", JString "ExponentPushToken[bob-phone]")] in
  last (st_outbox s) =
    Some (mkEmit (ToRoom lobby) ["a"; "b"]
                 (OnlineUsers [bob_entry; alice_session])) /\
  keys bob_entry <> ["username"; "room"; "socketId"].
Proof. vm_compute. split; [reflexivity|discriminate]. Qed.

(** Witness of C9: a socket that connects and disconnects without ever
    joining. *)
Lemma disconnect_without_session_witness :
  let s := run [Connect "a"] init in
  Registry.lookup "a" (st_onlineUsers s) = None /\
  st_outbox (step (Disconnect "a") s) = st_outbox s.
Proof.
  intros s. split; [reflexivity|].
  apply (disconnect_without_session s "a"). reflexivity.
Defined.


(** Witness of C2: alice's message, saved five milliseconds later. *)
Lemma message_timestamp_is_receive_time_witness :
  let s := run before_send init in
  connected "a" s = true /\
  forallb (fun i => negb (is_settle_of (st_next s) i)) [Tick 5] = true /\
  st_store
    (step (Settle (st_next s) true)
       (run [Tick 5]
          (step (Receive "a" (SendMessage alice lobby (JString "hi"))) s))) =
  st_store
    (run [Tick 5]
       (step (Receive "a" (SendMessage alice lobby (JString "hi"))) s)) ++
  [mkMessage alice lobby (JString "hi") (st_clock s)].
Proof.
  intros s. split; [reflexivity|]. split; [reflexivity|].
  apply (message_timestamp_is_receive_time s "a" alice lobby (JString "hi")
           [Tick 5]); reflexivity.
Defined.

(** Witness of C4: bob's join into the lobby where alice is. *)
Lemma chatHistory_oldest_fifty_witness :
  let s := run fetch_in_flight init in
  pending_lookup 1 (st_pending s) =
    Some (AwaitFind "b" bob lobby [0%nat; 1%nat]) /\
  exists msgs rest,
    emitted_since (length (st_outbox s)) (step (Settle 1 true) s) =
      mkEmit (ToSocket "b") (deliver (ToSocket "b") (st_sockets s))
             (ChatHistory msgs) :: rest /\
    (length msgs <= 50)%nat.
Proof.
  intros s. split; [reflexivity|].
  destruct (chatHistory_oldest_fifty s 1 "b" bob lobby [0%nat; 1%nat]
              eq_refl) as (msgs & rest & H1 & _ & _ & H2 & _).
  exists msgs, rest. split; [exact H1|exact H2].
Defined.



(** Witness of C8: alice writes to a lobby whose other members hold a
    valid, an invalid and another valid token. *)
Lemma push_recipients_witness :
  let s := run mixed_tokens init in
  pending_lookup 4 (st_pending s) =
    Some (AwaitSave "a" alice lobby (JString "hi")
            (mkMessage alice lobby (JString "hi") 0)) /\
  map n_to (concat (push_batches (st_next s) (step (Settle 4 true) s))) =
    [JString "ExponentPushToken[bob-phone]"; JString "ExpoPushToken[dan-phone]"] /\
  st_console (step (Settle 4 true) s) =
    st_console s ++
    [LogSent alice lobby (JString "hi");
     ErrInvalidPushToken (JString "not-a-token")] /\
  map (map n_to) (st_pushed (step (Settle 4 true) s)) =
    [[JString "ExponentPushToken[bob-phone]";
      JString "ExpoPushToken[dan-phone]"]].
Proof.
  intros s. split; [reflexivity|].
  destruct (push_recipients mixed_tokens 4 "a" alice lobby (JString "hi")
              (mkMessage alice lobby (JString "hi") 0) eq_refl)
    as (H1 & H2 & H3 & _).
  fold s in H1, H2, H3. split; [|split].
  - rewrite H1. reflexivity.
  - rewrite H2. reflexivity.
  - rewrite H3. reflexivity.
Defined.

(** Witness of C10: connection ["a"] joins the lobby, then the garden;
    bob's next message to the lobby still reaches it. *)
Lemma transport_rooms_only_grow_witness :
  let s := run bob_in_lobby init in
  let tr1 := [Settle 1 true] in
  let tr2 :=
    [Settle 2 true; Receive "b" (SendMessage bob lobby (JString "hi"));
     Settle 3 true] in
  connected "a" s = true /\
  forallb (fun i => negb (is_disconnect_of "a" i)) tr1 = true /\
  forallb (fun i => negb (is_disconnect_of "a" i)) tr2 = true /\
  in_transport_room "a" lobby
    (run tr2
       (step (Receive "a" (JoinRoom alice garden))
          (run tr1 (step (Receive "a" (JoinRoom alice lobby)) s)))) = true.
Proof.
  intros s tr1 tr2.
  assert (Hc : connected "a" s = true) by reflexivity.
  assert (H1 : forallb (fun i => negb (is_disconnect_of "a" i)) tr1 = true)
    by reflexivity.
  assert (H2 : forallb (fun i => negb (is_disconnect_of "a" i)) tr2 = true)
    by reflexivity.
  repeat (split; [assumption|]).
  exact (proj1 (proj2 (transport_rooms_only_grow s "a" alice lobby alice garden
                         tr1 tr2 Hc H1 H2))).
Defined.

(** ** Further properties on concrete runs *)

(** Witness of X1: alice types in the lobby while bob is in it. *)
Lemma typing_excludes_sender_witness :
  let s := run fetch_in_flight init in
  connected "a" s = true /\
  exists recipients,
    st_outbox (step (Receive "a" (Typing alice lobby (JBool true))) s) =
      st_outbox s ++
      [mkEmit (ToRoomExcept lobby "a") recipients
              (UserTyping alice (JBool true))] /\
    ~ In "a" recipients.
Proof.
  intros s. split; [reflexivity|].
  destruct (typing_excludes_sender s "a" alice lobby (JBool true) eq_refl)
    as (recipients & H1 & H2 & _).
  exists recipients. split; [exact H1|exact H2].
Defined.

(** Witness of X3: a token registered, then a join. *)
Lemma token_registered_before_join_witness :
  let s := run [Connect "a"] init in
  connected "a" s = true /\
  exists a,
    Registry.lookup "a"
      (st_onlineUsers
         (step (Receive "a" (JoinRoom alice lobby))
            (step (Receive "a"
                     (RegisterPushToken (JString "ExpoPushToken[alice-phone]")))
               s))) = Some a.
Proof.
  intros s. split; [reflexivity|].
  destruct (token_registered_before_join s "a"
              (JString "ExpoPushToken[alice-phone]") alice lobby eq_refl)
    as (a & H1 & _).
  exists a. exact H1.
Defined.

(** Witness of X4: alice registers a token after having joined. *)
Lemma token_registered_after_join_witness :
  let s := run alice_in_lobby init in
  Registry.lookup "a" (st_onlineUsers s) = Some 0%nat /\
  get "pushToken"
    (deref
       (st_heap
          (step (Receive "a"
                   (RegisterPushToken (JString "ExpoPushToken[alice-phone]")))
             s)) 0%nat) = JString "ExpoPushToken[alice-phone]".
Proof.
  intros s. split; [reflexivity|].
  exact (proj1 (proj2 (token_registered_after_join alice_in_lobby "a" 0%nat
                         (JString "ExpoPushToken[alice-phone]") eq_refl))).
Defined.

(** Witness of X5: alice joins the garden after the lobby. *)
Lemma rejoin_keeps_position_witness :
  let s := run fetch_in_flight init in
  connected "a" s = true /\
  map fst (st_onlineUsers (step (Receive "a" (JoinRoom alice garden)) s)) =
    ["a"; "b"].
Proof.
  intros s. split; [reflexivity|].
  rewrite (rejoin_keeps_position s "a" alice garden eq_refl). reflexivity.
Defined.

(** Witness of X6: a token registration, a message and a typing indicator. *)
Lemma membership_changes_only_on_join_or_disconnect_witness :
  let s := run fetch_in_flight init in
  let tr :=
    [Receive "a" (RegisterPushToken (JString "ExpoPushToken[alice-phone]"));
     Receive "b" (SendMessage bob lobby (JString "hi")); Settle 2 true;
     Receive "b" (Typing bob lobby (JBool true)); Settle 1 true] in
  forallb (fun i => negb (changes_membership i)) tr = true /\
  st_onlineUsers (run tr s) = st_onlineUsers s.
Proof.
  intros s tr. split; [reflexivity|].
  exact (proj1 (membership_changes_only_on_join_or_disconnect tr s eq_refl)).
Defined.

(** Witness of X7: while bob's history is fetched, alice registers a
    token and sends a message. *)
Lemma onlineUsers_exact_without_membership_change_witness :
  let s := run (alice_in_lobby ++ [Connect "b"]) init in
  let tr :=
    [Receive "a" (RegisterPushToken (JString "ExpoPushToken[alice-phone]"));
     Receive "a" (SendMessage alice lobby (JString "hi")); Settle 2 true] in
  connected "b" s = true /\
  forallb (fun i => negb (changes_membership i)) tr = true /\
  forallb (fun i => negb (is_settle_of (st_next s) i)) tr = true /\
  let s3 :=
    step (Settle (st_next s) true)
         (run tr (step (Receive "b" (JoinRoom bob lobby)) s)) in
  last (st_outbox s3) =
    Some (mkEmit (ToRoom lobby) (deliver (ToRoom lobby) (st_sockets s3))
                 (OnlineUsers (members lobby s3))).
Proof.
  intros s tr. split; [reflexivity|]. split; [reflexivity|].
  split; [reflexivity|].
  exact (onlineUsers_exact_without_membership_change s "b" bob lobby tr
           eq_refl eq_refl eq_refl).
Defined.

(** Witness of X10: bob leaves the lobby where alice stays. *)
Lemma disconnect_with_session_witness :
  let s := run (fetch_in_flight ++ [Settle 1 true]) init in
  Registry.lookup "b" (st_onlineUsers s) = Some 1%nat /\
  Registry.lookup "b" (st_onlineUsers (step (Disconnect "b") s)) = None.
Proof.
  intros s. split; [reflexivity|].
  exact (proj1 (disconnect_with_session (fetch_in_flight ++ [Settle 1 true])
                  "b" 1%nat eq_refl)).
Defined.

(** Witness of X11: bob disconnects while his history is fetched. *)
Lemma disconnect_during_fetch_leaves_entry_witness :
  let s := run (alice_in_lobby ++ [Connect "b"]) init in
  connected "b" s = true /\
  Registry.lookup "b"
    (st_onlineUsers
       (step (Settle (st_next s) true)
          (step (Disconnect "b")
             (step (Receive "b" (JoinRoom bob lobby)) s)))) = None.
Proof.
  intros s. split; [reflexivity|].
  exact (proj1 (disconnect_during_fetch_leaves_entry s "b" bob lobby eq_refl)).
Defined.

(** Witness of X12: a push loop with two chunks left, the first of which
    fails. *)
Lemma push_chunks_all_sent_witness :
  let n := mkNotification (JString "ExpoPushToken[bob-phone]") "default"
             "alice in lobby" (JString "hi") lobby alice in
  let s := suspend (AwaitPush [n] [[n; n]; [n]]) init in
  pending_lookup 0 (st_pending s) = Some (AwaitPush [n] [[n; n]; [n]]) /\
  length [false; true] = length [[n; n]; [n]] /\
  st_pushed (run (Settle 0 true :: settle_from (st_next s) [false; true]) s) =
    st_pushed s ++ [[n; n]; [n]].
Proof.
  intros n s. split; [reflexivity|]. split; [reflexivity|].
  exact (proj1 (push_chunks_all_sent s 0 [n] [[n; n]; [n]] true [false; true]
                  eq_refl eq_refl)).
Defined.

(** Witness of X14: bob joins the lobby after three messages. *)
Lemma chatHistory_complete_for_small_room_witness :
  let s := run (chatter 3 ++ [Connect "b"; Receive "b" (JoinRoom bob lobby)])
               init in
  pending_lookup 4 (st_pending s) =
    Some (AwaitFind "b" bob lobby [0%nat; 1%nat]) /\
  (length (Store.find lobby (st_store s)) <= 50)%nat /\
  exists msgs,
    chatHistory_sent "b" (step (Settle 4 true) s) =
      chatHistory_sent "b" s ++ [msgs] /\
    msgs ≡ₚ Store.find lobby (st_store s).
Proof.
  intros s.
  assert (Hp : pending_lookup 4 (st_pending s) =
               Some (AwaitFind "b" bob lobby [0%nat; 1%nat])) by reflexivity.
  assert (Hlen : (length (Store.find lobby (st_store s)) <= 50)%nat)
    by (vm_compute; lia).
  split; [exact Hp|]. split; [exact Hlen|].
  destruct (chatHistory_complete_for_small_room s 4 "b" bob lobby
              [0%nat; 1%nat] Hp Hlen) as (msgs & H1 & H2 & _).
  exists msgs. split; [exact H1|exact H2].
Defined.

(** Witness of X15: alice's message is saved, then bob joins the lobby. *)
Lemma saved_message_reaches_later_joiners_witness :
  let doc := mkMessage alice lobby (JString "hi") 1000 in
  let s := run (before_send ++
                [Receive "a" (SendMessage alice lobby (JString "hi"))]) init in
  let tr := [Connect "b"; Receive "b" (JoinRoom bob lobby)] in
  let s1 := run tr (step (Settle 1 true) s) in
  pending_lookup 1 (st_pending s) =
    Some (AwaitSave "a" alice (msg_room doc) (JString "hi") doc) /\
  pending_lookup 2 (st_pending s1) =
    Some (AwaitFind "b" bob (msg_room doc) [0%nat; 1%nat]) /\
  (length (Store.find (msg_room doc) (st_store s1)) <= 50)%nat /\
  exists msgs,
    chatHistory_sent "b" (step (Settle 2 true) s1) =
      chatHistory_sent "b" s1 ++ [msgs] /\
    In doc msgs.
Proof.
  intros doc s tr s1.
  assert (Hp : pending_lookup 1 (st_pending s) =
               Some (AwaitSave "a" alice (msg_room doc) (JString "hi") doc))
    by reflexivity.
  assert (Hq : pending_lookup 2 (st_pending s1) =
               Some (AwaitFind "b" bob (msg_room doc) [0%nat; 1%nat]))
    by reflexivity.
  assert (Hlen : (length (Store.find (msg_room doc) (st_store s1)) <= 50)%nat)
    by (vm_compute; lia).
  split; [exact Hp|]. split; [exact Hq|]. split; [exact Hlen|].
  exact (saved_message_reaches_later_joiners s 1 2 "a" "b" alice (JString "hi")
           bob doc [0%nat; 1%nat] tr Hp Hq Hlen).
Defined.

(** Witness of X17: two joins, a message and a departure, no token. *)
Lemma server_without_tokens_is_legacy_witness :
  let tr :=
    fetch_in_flight ++
    [Settle 1 true; Receive "a" (SendMessage alice lobby (JString "hi"));
     Settle 2 true; Disconnect "b"] in
  forallb (fun i => negb (registers_token i)) tr = true /\
  Legacy.run tr init = strip_state (run tr init).
Proof.
  intros tr. split; [reflexivity|].
  exact (proj1 (server_without_tokens_is_legacy tr eq_refl)).
Defined.

(** Witness of X18: a newcomer types and writes into the lobby without
    joining it. *)
Lemma not_listed_until_join_witness :
  let tr :=
    [Receive "b" (Typing bob lobby (JBool true));
     Receive "b" (SendMessage bob lobby (JString "hi")); Settle 1 true] in
  connected "b" (run alice_in_lobby init) = false /\
  forallb (fun i => negb (is_join_of "b" i)) tr = true /\
  registered_room "b" (run (Connect "b" :: tr) (run alice_in_lobby init)) =
    None.
Proof.
  intros tr. split; [reflexivity|]. split; [reflexivity|].
  exact (proj1 (not_listed_until_join alice_in_lobby "b" tr eq_refl eq_refl)).
Defined.

